(** * no-google: blocklist converter and maintenance scripts

    A shallow embedding of [convert.py], [scripts/tests.py],
    [scripts/dnscheck.py] and [scripts/domain-check-api.py], and the
    properties of the converter pipeline and of the checking scripts.

    Conventions of the embedding.
    - A Python [str] is a [string]; each character stands for one code point
      below 256, so [str.strip], [str.lower] and friends are the restrictions
      of the Python methods to that range.
    - A text file is the [string] of its decoded contents; iterating over an
      open file yields the lines computed by [PyStr.iter_lines] (universal
      newlines, line terminator kept).
    - The file system is a finite map from path strings to contents; a write
      in mode "w" replaces the binding.  Writes do not fail in this model.
    - Logging, standard output and the resolver/WHOIS services are explicit:
      the former are lists that the code appends to, the latter are oracles
      indexed by the number of queries already made. *)

From Stdlib Require Import Ascii String List ZArith Lia Bool.
From stdpp Require Import base option list strings gmap pretty.

Local Open Scope stdpp_scope.

(** ** Python string primitives *)

Module PyStr.

Definition nl : string := String "010"%char EmptyString.
Definition dquote : string := String "034"%char EmptyString.

(** Truthiness of a [str]: non-empty. *)
Definition truthy (s : string) : bool :=
  match s with EmptyString => false | String _ _ => true end.

(** [str.isspace] on one code point below 256. *)
Definition isspace (c : ascii) : bool :=
  let n := N_of_ascii c in
  ((9 <=? n) && (n <=? 13) || (28 <=? n) && (n <=? 32)
   || (n =? 133) || (n =? 160))%N.

(** [s.lstrip()] *)
Fixpoint lstrip (s : string) : string :=
  match s with
  | EmptyString => EmptyString
  | String c s' => if isspace c then lstrip s' else s
  end.

(** [s.rstrip()] *)
Fixpoint rstrip (s : string) : string :=
  match s with
  | EmptyString => EmptyString
  | String c s' =>
      let r := rstrip s' in
      if isspace c && negb (truthy r) then EmptyString else String c r
  end.

(** [s.strip()] *)
Definition strip (s : string) : string := rstrip (lstrip s).

(** [c in chars] for a single character. *)
Fixpoint mem_char (c : ascii) (chars : string) : bool :=
  match chars with
  | EmptyString => false
  | String d chars' => Ascii.eqb c d || mem_char c chars'
  end.

(** [s.lstrip(chars)] *)
Fixpoint lstrip_chars (chars s : string) : string :=
  match s with
  | EmptyString => EmptyString
  | String c s' => if mem_char c chars then lstrip_chars chars s' else s
  end.

(** [s.startswith(p)] *)
Definition startswith (s p : string) : bool := String.prefix p s.

(** [sub in s] *)
Fixpoint contains (sub s : string) : bool :=
  String.prefix sub s ||
  match s with
  | EmptyString => false
  | String _ s' => contains sub s'
  end.

(** [str.lower] on one code point below 256: A-Z and the Latin-1 capitals
    U+00C0..U+00DE (U+00D7 excepted) move up by 32. *)
Definition lower_char (c : ascii) : ascii :=
  let n := N_of_ascii c in
  if ((65 <=? n) && (n <=? 90)
      || (192 <=? n) && (n <=? 222) && negb (n =? 215))%N
  then ascii_of_N (n + 32) else c.

Fixpoint lower (s : string) : string :=
  match s with
  | EmptyString => EmptyString
  | String c s' => String (lower_char c) (lower s')
  end.

(** [s.replace(old, new)] for a one-character [old]. *)
Fixpoint replace_char (old : ascii) (new s : string) : string :=
  match s with
  | EmptyString => EmptyString
  | String c s' =>
      if Ascii.eqb c old then new +:+ replace_char old new s'
      else String c (replace_char old new s')
  end.

(** [s.split(sep)] for a one-character [sep]. *)
Fixpoint split_char (sep : ascii) (s : string) : list string :=
  match s with
  | EmptyString => [EmptyString]
  | String c s' =>
      if Ascii.eqb c sep then EmptyString :: split_char sep s'
      else match split_char sep s' with
           | [] => [String c EmptyString]
           | w :: ws => String c w :: ws
           end
  end.

(** [sep.join(parts)] *)
Fixpoint join (sep : string) (parts : list string) : string :=
  match parts with
  | [] => EmptyString
  | [p] => p
  | p :: ps => p +:+ sep +:+ join sep ps
  end.

(** The concatenation of a list of strings. *)
Fixpoint concat (parts : list string) : string :=
  match parts with
  | [] => EmptyString
  | p :: ps => p +:+ concat ps
  end.

(** [s.rfind(".")] as an option: the index of the last dot. *)
Fixpoint rfind_char (ch : ascii) (s : string) : option nat :=
  match s with
  | EmptyString => None
  | String c s' =>
      match rfind_char ch s' with
      | Some i => Some (S i)
      | None => if Ascii.eqb c ch then Some 0 else None
      end
  end.

(** [s[:n]] and [s[n:]] *)
Fixpoint take (n : nat) (s : string) : string :=
  match n, s with
  | S n', String c s' => String c (take n' s')
  | _, _ => EmptyString
  end.

Fixpoint drop (n : nat) (s : string) : string :=
  match n, s with
  | S n', String _ s' => drop n' s'
  | _, _ => s
  end.

(** The lines produced by iterating over a file opened in text mode:
    ["\r\n"] and a lone ["\r"] are read as ["\n"], every line keeps its
    terminator, and a last line without one is still a line. *)
Fixpoint iter_lines (s : string) : list string :=
  match s with
  | EmptyString => []
  | String c s' =>
      if Ascii.eqb c "010"%char then nl :: iter_lines s'
      else if Ascii.eqb c "013"%char then
        match s' with
        | String "010"%char _ => iter_lines s'
        | _ => nl :: iter_lines s'
        end
      else match iter_lines s' with
           | [] => [String c EmptyString]
           | l :: ls => String c l :: ls
           end
  end.

End PyStr.

(** ** Diagnostics shared by all scripts: [logging] with its levels *)

Inductive level := INFO | WARNING | ERROR.

Definition log_entry : Type := level * string.

(** ** convert.py *)

Module Convert.
Import PyStr.

Definition INPUT_FILE : string := "pihole-google.txt".
Definition PIHOLE_FILE : string := "google-domains".
Definition UNBOUND_FILE : string := "pihole-google-unbound.conf".
Definition ADGUARD_FILE : string := "pihole-google-adguard.txt".
Definition ADGUARD_IMPORTANT_FILE : string :=
  "pihole-google-adguard-important.txt".
Definition CATEGORIES_PATH : string := "categories".
Definition BLOCKLIST_ABOUT : string :=
  "This blocklist helps to restrict access to Google and its domains. Contribute at https://github.com/nickspaargaren/no-google".

(** [self.data]: an [OrderedDict] from category to the list of its
    entries, kept as an association list in insertion order with unique
    keys. *)
Definition document : Type := list (string * list string).

(** [key in d] *)
Fixpoint has_key (k : string) (d : document) : bool :=
  match d with
  | [] => false
  | (k', _) :: d' => String.eqb k k' || has_key k d'
  end.

(** [d.setdefault(k, [])]: a new key goes last, an old one is left alone. *)
Definition setdefault (k : string) (d : document) : document :=
  if has_key k d then d else d ++ [(k, [])].

(** [d[k].append(x)]; [None] stands for the [KeyError] of [d[k]]. *)
Fixpoint append_at (k x : string) (d : document) : option document :=
  match d with
  | [] => None
  | (k', v) :: d' =>
      if String.eqb k k' then Some ((k', v ++ [x]) :: d')
      else option_map (cons (k', v)) (append_at k x d')
  end.

(** The exceptions that the converter raises or catches. *)
Inductive exn :=
| FileNotFoundError
| ValueError (msg : string)
| KeyError (key : string)
| AttributeError (name : string).

(** [str(e)].  [KeyError] prints the [repr] of its key; the quoting of
    [repr] is simplified to plain single quotes, on a path that
    [read_loop_no_KeyError] below shows is never taken. *)
Definition str_of_exn (e : exn) : string :=
  match e with
  | FileNotFoundError => "No such file or directory"
  | ValueError msg => msg
  | KeyError k => "'" +:+ k +:+ "'"
  | AttributeError n =>
      "'DomainBlocklistConverter' object has no attribute '" +:+ n +:+ "'"
  end.

(** The body of the [for line in f] loop of [read], with the loop variable
    [category] and the dictionary threaded through.  On an exception the
    dictionary built so far is returned with it. *)
Fixpoint read_loop (category : option string) (lines : list string)
    (d : document) : document * option exn :=
  match lines with
  | [] => (d, None)
  | line :: rest =>
      let line := strip line in
      if startswith line "#" then
        let category := strip (lstrip_chars "# " line) in
        read_loop (Some category) rest (setdefault category d)
      else if truthy line then
        match category with
        | None => (d, Some (ValueError "Unable to store item without category"))
        | Some c =>
            match append_at c line d with
            | None => (d, Some (KeyError c))
            | Some d' => read_loop category rest d'
            end
        end
      else read_loop category rest d
  end.

(** *** The converter object and the process around it *)

Record state := mkState {
  data : document;                 (* self.data *)
  timestamp : string;              (* self.timestamp *)
  fs : gmap string string;         (* files, by path *)
  dirs : gset string;              (* directories created *)
  log : list log_entry;            (* the logging stream *)
  stdout : list string             (* lines printed *)
}.

(** How a call ends: it returns, raises an exception that a caller may
    catch, or raises [SystemExit] through [sys.exit]. *)
Inductive result (A : Type) :=
| Ret (a : A)
| Raise (e : exn)
| SysExit (code : Z).
Arguments Ret {A} a.
Arguments Raise {A} e.
Arguments SysExit {A} code.

Definition M (A : Type) : Type := state -> result A * state.

Definition ret {A} (a : A) : M A := fun s => (Ret a, s).

Definition bind {A B} (m : M A) (k : A -> M B) : M B :=
  fun s =>
    match m s with
    | (Ret a, s') => k a s'
    | (Raise e, s') => (Raise e, s')
    | (SysExit c, s') => (SysExit c, s')
    end.

#[export] Instance M_ret : MRet M := @ret.
#[export] Instance M_bind : MBind M := fun A B k m => bind m k.

Definition raise {A} (e : exn) : M A := fun s => (Raise e, s).
Definition sys_exit {A} (code : Z) : M A := fun s => (SysExit code, s).

(** [try: m except Exception as e: h e]; [SystemExit] is not an
    [Exception] and passes through. *)
Definition try_except {A} (m : M A) (h : exn -> M A) : M A :=
  fun s =>
    match m s with
    | (Raise e, s') => h e s'
    | r => r
    end.

Definition logging (l : level) (msg : string) : M unit :=
  fun s => (Ret tt, mkState (data s) (timestamp s) (fs s) (dirs s)
                            (log s ++ [(l, msg)]) (stdout s)).

Definition print (line : string) : M unit :=
  fun s => (Ret tt, mkState (data s) (timestamp s) (fs s) (dirs s)
                            (log s) (stdout s ++ [line])).

Definition get_data : M document := fun s => (Ret (data s), s).
Definition get_timestamp : M string := fun s => (Ret (timestamp s), s).

Definition set_data (d : document) : M unit :=
  fun s => (Ret tt, mkState d (timestamp s) (fs s) (dirs s)
                            (log s) (stdout s)).

(** [open(path, "r")] followed by reading: the contents, or
    [FileNotFoundError]. *)
Definition open_read (path : string) : M string :=
  fun s => match fs s !! path with
           | Some content => (Ret content, s)
           | None => (Raise FileNotFoundError, s)
           end.

(** [open(path, "w")], the writes, and the close: the file now holds
    exactly what was written. *)
Definition write_file (path content : string) : M unit :=
  fun s => (Ret tt, mkState (data s) (timestamp s)
                            (<[path := content]> (fs s)) (dirs s)
                            (log s) (stdout s)).

(** [Path(path).mkdir(parents=True, exist_ok=True)] *)
Definition mkdir (path : string) : M unit :=
  fun s => (Ret tt, mkState (data s) (timestamp s) (fs s)
                            ({[path]} ∪ dirs s) (log s) (stdout s)).

(** [for x in xs: body x] *)
Fixpoint for_each {A} (xs : list A) (body : A -> M unit) : M unit :=
  match xs with
  | [] => ret tt
  | x :: xs' => body x;; for_each xs' body
  end.

(** Unfolding of the primitives of [M], for symbolic execution. *)
Ltac mstep :=
  unfold mbind, M_bind, mret, M_ret, bind, ret, raise, sys_exit,
    try_except, logging, print, get_data, get_timestamp, set_data,
    open_read, write_file, mkdir;
  cbn [fst snd data timestamp fs dirs log stdout].

(** [read]: the dictionary is updated in place while the loop runs, so an
    exception leaves the partial dictionary behind; every handler logs and
    exits with status 1. *)
Definition read : M unit :=
  try_except
    (content ← open_read INPUT_FILE;
     d ← get_data;
     let '(d', e) := read_loop None (iter_lines content) d in
     set_data d';;
     match e with
     | None => ret tt
     | Some e => raise e
     end)
    (fun e =>
       match e with
       | FileNotFoundError =>
           logging ERROR ("Input file not found: " +:+ INPUT_FILE);;
           sys_exit 1
       | ValueError msg => logging ERROR msg;; sys_exit 1
       | _ =>
           logging ERROR ("Unexpected error: " +:+ str_of_exn e);;
           sys_exit 1
       end).

(** *** Writing a blocklist *)

(** [_write_blocklist]: the successive [f.write] calls on the file opened
    for writing; [f] below is what has been written so far. *)
Definition write_entries (line_formatter : string -> string)
    (f : string) (entries : list string) : string :=
  foldl (fun f entry =>
           if truthy entry then f +:+ line_formatter entry else f)
        f entries.

Definition write_categories (line_formatter : string -> string)
    (f : string) (d : document) : string :=
  foldl (fun f '(category, entries) =>
           write_entries line_formatter
             (f +:+ "# " +:+ category +:+ nl) entries)
        f d.

Definition blocklist_text (about ts : string)
    (line_formatter : string -> string) (d : document) : string :=
  let f := EmptyString in
  let f := f +:+ "# " +:+ about +:+ nl in
  let f := f +:+ "# Last updated: " +:+ ts +:+ nl in
  write_categories line_formatter f d.

Definition _write_blocklist (filename : string)
    (line_formatter : string -> string) : M unit :=
  d ← get_data;
  ts ← get_timestamp;
  write_file filename (blocklist_text BLOCKLIST_ABOUT ts line_formatter d).

(** The line formatters, named after the actions that pass them as
    lambdas. *)
Definition pihole_line (entry : string) : string :=
  "0.0.0.0 " +:+ entry +:+ nl.
Definition unbound_line (entry : string) : string :=
  "local-zone: " +:+ dquote +:+ entry +:+ dquote +:+ " always_refuse" +:+ nl.
Definition adguard_line (entry : string) : string :=
  "||" +:+ entry +:+ "^" +:+ nl.
Definition adguard_important_line (entry : string) : string :=
  "||" +:+ entry +:+ "^$important" +:+ nl.
Definition category_raw_line (entry : string) : string :=
  "0.0.0.0 " +:+ entry +:+ nl.
Definition category_parsed_line (entry : string) : string :=
  entry +:+ nl.

Definition pihole : M unit := _write_blocklist PIHOLE_FILE pihole_line.
Definition unbound : M unit := _write_blocklist UNBOUND_FILE unbound_line.
Definition adguard : M unit := _write_blocklist ADGUARD_FILE adguard_line.
Definition adguard_important : M unit :=
  _write_blocklist ADGUARD_IMPORTANT_FILE adguard_important_line.

(** *** [pathlib.PurePosixPath], as far as [categories] uses it *)

Record path := mkPath {
  root : string;          (* empty, "/" or "//" *)
  parts : list string     (* the components after the root *)
}.

Fixpoint leading (c : ascii) (s : string) : nat :=
  match s with
  | String c' s' => if Ascii.eqb c' c then S (leading c s') else 0
  | EmptyString => 0
  end.

Definition is_component (p : string) : bool :=
  truthy p && negb (String.eqb p ".").

(** [Path(s)]: exactly two leading slashes are kept as the root ["//"],
    any other positive number collapses to ["/"]; empty and ["."]
    components are dropped. *)
Definition Path (s : string) : path :=
  let n := leading "/" s in
  let rel := drop n s in
  mkPath (match n with 0 => EmptyString | 2 => "//" | _ => "/" end)
         (filter (fun p => is_component p = true)
                 (if truthy rel then split_char "/" rel else [])).

(** [p.joinpath(other)]: an anchored [other] replaces [p]. *)
Definition joinpath (p : path) (other : string) : path :=
  let q := Path other in
  if truthy (root q) then q
  else mkPath (root p) (parts p ++ parts q).

(** [str(p)] *)
Definition path_str (p : path) : string :=
  match root p, parts p with
  | EmptyString, [] => "."
  | r, ps => r +:+ join "/" ps
  end.

(** [p.name] *)
Definition path_name (p : path) : string := List.last (parts p) EmptyString.

(** [p.suffix]: from the last dot of the name, unless that dot is the
    first or the last character. *)
Definition name_suffix (name : string) : string :=
  match rfind_char "." name with
  | Some i =>
      if (0 <? i) && (i <? String.length name - 1) then drop i name
      else EmptyString
  | None => EmptyString
  end.

(** [p.with_suffix(suffix)] for a well-formed [suffix] such as [".txt"]:
    the old suffix, when there is one, is replaced. *)
Definition with_suffix (p : path) (suffix : string) : exn + path :=
  let name := path_name p in
  if negb (truthy name) then
    inl (ValueError ("PosixPath('" +:+ path_str p +:+ "') has an empty name"))
  else
    let old_suffix := name_suffix name in
    let name' :=
      if negb (truthy old_suffix) then name +:+ suffix
      else take (String.length name - String.length old_suffix) name
           +:+ suffix in
    inr (mkPath (root p) (removelast (parts p) ++ [name'])).

(** The two file names that [categories] computes for one category. *)
Definition category_files (category : string) : exn + (string * string) :=
  let filename := lower (replace_char " " EmptyString category) in
  let filepath := joinpath (Path CATEGORIES_PATH) filename in
  match with_suffix filepath ".txt" with
  | inl e => inl e
  | inr text_file =>
      let parsed_file := path_str filepath +:+ "parsed" in
      inr (path_str text_file, parsed_file)
  end.

(** [categories]: for every category, both files are written through
    [_write_blocklist], which iterates over the whole of [self.data]. *)
Definition categories : M unit :=
  mkdir CATEGORIES_PATH;;
  d ← get_data;
  for_each d (fun '(category, entries) =>
    match category_files category with
    | inl e => raise e
    | inr (text_file, parsed_file) =>
        _write_blocklist text_file category_raw_line;;
        _write_blocklist parsed_file category_parsed_line
    end).

(** *** The report-only duplicate scan *)

(** [hashes]: a [defaultdict(int)], in insertion order.
    [incr k h] is [h[k] += 1]. *)
Fixpoint incr (k : string) (h : list (string * nat)) : list (string * nat) :=
  match h with
  | [] => [(k, 1)]
  | (k', n) :: h' =>
      if String.eqb k k' then (k', S n) :: h' else (k', n) :: incr k h'
  end.

Definition count_entries (d : document) : list (string * nat) :=
  foldl (fun h '(_, entries) => foldl (fun h entry => incr entry h) h entries)
        [] d.

Definition duplicate_line (entry : string) (count : nat) : string :=
  "Domain " +:+ entry +:+ " found " +:+ pretty count
  +:+ " times, please remove duplicate domains.".

(** The reporting loop, threading [duplicates_found]. *)
Fixpoint report_duplicates (hashes : list (string * nat))
    (duplicates_found : bool) : M bool :=
  match hashes with
  | [] => ret duplicates_found
  | (entry, count) :: hashes' =>
      if 1 <? count then
        print (duplicate_line entry count);;
        report_duplicates hashes' true
      else report_duplicates hashes' duplicates_found
  end.

Definition duplicates : M unit :=
  d ← get_data;
  duplicates_found ← report_duplicates (count_entries d) false;
  if negb duplicates_found then print "No duplicate domains found."
  else ret tt.

(** *** [json.dumps(self.data, indent=4)] *)

Definition hex_digit (n : N) : ascii :=
  ascii_of_N (if (n <? 10)%N then 48 + n else 87 + n).

Definition json_char (c : ascii) : string :=
  let n := N_of_ascii c in
  if (n =? 34)%N then "\" +:+ dquote
  else if (n =? 92)%N then "\\"
  else if (n =? 8)%N then "\b"
  else if (n =? 12)%N then "\f"
  else if (n =? 10)%N then "\n"
  else if (n =? 13)%N then "\r"
  else if (n =? 9)%N then "\t"
  else if ((32 <=? n) && (n <=? 126))%N then String c EmptyString
  else "\u00" +:+ String (hex_digit (n / 16)) (String (hex_digit (n mod 16))
                                                      EmptyString).

Fixpoint json_chars (s : string) : string :=
  match s with
  | EmptyString => EmptyString
  | String c s' => json_char c +:+ json_chars s'
  end.

Definition json_str (s : string) : string :=
  dquote +:+ json_chars s +:+ dquote.

Definition json_list (entries : list string) : string :=
  match entries with
  | [] => "[]"
  | _ =>
      "[" +:+ nl
      +:+ join ("," +:+ nl)
            (map (fun e => "        " +:+ json_str e) entries)
      +:+ nl +:+ "    ]"
  end.

Definition json_dumps (d : document) : string :=
  match d with
  | [] => "{}"
  | _ =>
      "{" +:+ nl
      +:+ join ("," +:+ nl)
            (map (fun '(k, v) => "    " +:+ json_str k +:+ ": " +:+ json_list v)
                 d)
      +:+ nl +:+ "}"
  end.

Definition dump : M unit :=
  d ← get_data;
  print (json_dumps d).

(** *** The dispatcher *)

(** [getattr(converter, name)()] for the callable attributes that take no
    argument; any other name is treated as missing.  (A name of a data
    attribute or of [_write_blocklist] raises [TypeError] instead, which
    the generic handler of [run] turns into the same exit status.) *)
Definition call_method (name : string) : M unit :=
  if String.eqb name "pihole" then pihole
  else if String.eqb name "unbound" then unbound
  else if String.eqb name "adguard" then adguard
  else if String.eqb name "adguard_important" then adguard_important
  else if String.eqb name "categories" then categories
  else if String.eqb name "duplicates" then duplicates
  else if String.eqb name "read" then read
  else if String.eqb name "dump" then dump
  else raise (AttributeError name).

Definition run (action : string) (action_candidates : list string)
    : M unit :=
  read;;
  if String.eqb action "json" then dump
  else
    let subcommands :=
      if String.eqb action "all" then action_candidates else [action] in
    for_each subcommands (fun action =>
      logging INFO ("Invoking subcommand '" +:+ action +:+ "'");;
      try_except (call_method action)
        (fun e =>
           match e with
           | AttributeError _ =>
               logging ERROR ("Invalid subcommand: " +:+ action);;
               sys_exit 1
           | _ =>
               logging ERROR ("Error during '" +:+ action +:+ "': "
                              +:+ str_of_exn e);;
               sys_exit 1
           end)).

Definition action_candidates : list string :=
  ["pihole"; "unbound"; "adguard"; "adguard_important"; "categories"].
Definition special_candidates : list string :=
  ["all"; "duplicates"; "json"].

(** The [__main__] block; [subcommand] is [sys.argv[1]] when present. *)
Definition main (subcommand : option string) : M unit :=
  match subcommand with
  | Some sub =>
      if bool_decide (sub ∈ action_candidates ++ special_candidates)
      then run sub action_candidates
      else
        logging ERROR "Subcommand not given or invalid, please use one of ['pihole', 'unbound', 'adguard', 'adguard_important', 'categories', 'all', 'duplicates', 'json']";;
        sys_exit 1
  | None =>
      logging ERROR "Subcommand not given or invalid, please use one of ['pihole', 'unbound', 'adguard', 'adguard_important', 'categories', 'all', 'duplicates', 'json']";;
      sys_exit 1
  end.

(** A process: the converter object is created with an empty dictionary
    and today's date, over the files that exist; the exit status is 0 on
    return, the argument of [sys.exit], or 1 for an uncaught exception. *)
Definition initial (today : string) (files : gmap string string) : state :=
  mkState [] today files ∅ [] [].

Definition exit_status {A} (r : result A) : Z :=
  match r with
  | Ret _ => 0
  | Raise _ => 1
  | SysExit code => code
  end.

Definition process (today : string) (subcommand : option string)
    (files : gmap string string) : Z * state :=
  let '(r, s) := main subcommand (initial today files) in
  (exit_status r, s).

End Convert.

(** ** scripts/tests.py *)

Module Tests.
Import PyStr.

Inductive exn :=
| FileNotFoundError
| AssertionError (msg : string).

(** How a check ends, and what it logged. *)
Definition outcome : Type := (exn + unit) * list log_entry.

(** [counts]: a [dict] from line to number of occurrences, in insertion
    order.  A line already present gets one more, a new line starts
    at 1. *)
Fixpoint add_count (domain : string) (counts : list (string * nat))
    : list (string * nat) :=
  match counts with
  | [] => [(domain, 1)]
  | (k, n) :: counts' =>
      if String.eqb domain k then (k, n + 1) :: counts'
      else (k, n) :: add_count domain counts'
  end.

(** The reading loop of [check_duplicates]. *)
Fixpoint count_lines (lines : list string) (counts : list (string * nat))
    : list (string * nat) :=
  match lines with
  | [] => counts
  | line :: rest =>
      let domain := strip line in
      if truthy domain then count_lines rest (add_count domain counts)
      else count_lines rest counts
  end.

Definition duplicate_message (domain : string) (count : nat)
    (filepath : string) : string :=
  "Duplicate domain found: '" +:+ domain +:+ "' occurred "
  +:+ pretty count +:+ " times in " +:+ filepath
  +:+ ". Please remove duplicate domains.".

(** The loop over [counts.items()]: the first count above 1 raises. *)
Fixpoint first_duplicate (counts : list (string * nat))
    : option (string * nat) :=
  match counts with
  | [] => None
  | (domain, count) :: counts' =>
      if 1 <? count then Some (domain, count) else first_duplicate counts'
  end.

(** [check_duplicates(filepath)]; [file] is the contents of the file at
    [filepath], if it exists. *)
Definition check_duplicates (filepath : string) (file : option string)
    : outcome :=
  match file with
  | None =>
      (inl FileNotFoundError, [(ERROR, "File not found: " +:+ filepath)])
  | Some content =>
      let counts := count_lines (iter_lines content) [] in
      match first_duplicate counts with
      | Some (domain, count) =>
          (inl (AssertionError (duplicate_message domain count filepath)),
           [])
      | None => (inr tt, [(INFO, "No duplicate domains found.")])
      end
  end.

(** The inner loop of [check_regex_domains]: the first forbidden
    substring found in [domain]. *)
Fixpoint first_forbidden (forbidden_domains : list string)
    (domain : string) : option string :=
  match forbidden_domains with
  | [] => None
  | forbidden :: others =>
      if contains forbidden domain then Some forbidden
      else first_forbidden others domain
  end.

(** The outer loop, over [enumerate(f, line_number)]. *)
Fixpoint scan (line_number : nat) (lines : list string)
    (forbidden_domains : list string) : option (string * nat * string) :=
  match lines with
  | [] => None
  | line :: rest =>
      let domain := strip line in
      if truthy domain then
        match first_forbidden forbidden_domains domain with
        | Some forbidden => Some (forbidden, line_number, domain)
        | None => scan (S line_number) rest forbidden_domains
        end
      else scan (S line_number) rest forbidden_domains
  end.

Definition forbidden_message (forbidden : string) (line_number : nat)
    (domain filepath : string) : string :=
  "Forbidden domain '" +:+ forbidden +:+ "' found on line "
  +:+ pretty line_number +:+ ": '" +:+ domain +:+ "' in " +:+ filepath
  +:+ ". Please remove regex domains.".

(** [check_regex_domains(filepath, forbidden_domains)].  The assertion is
    raised inside the [try] block, so the generic handler logs it before
    raising it again. *)
Definition check_regex_domains (filepath : string) (file : option string)
    (forbidden_domains : list string) : outcome :=
  match file with
  | None =>
      (inl FileNotFoundError, [(ERROR, "File not found: " +:+ filepath)])
  | Some content =>
      match scan 1 (iter_lines content) forbidden_domains with
      | Some (forbidden, line_number, domain) =>
          let msg :=
            forbidden_message forbidden line_number domain filepath in
          (inl (AssertionError msg),
           [(ERROR, "Unexpected error: " +:+ msg)])
      | None =>
          (inr tt,
           [(INFO, "No forbidden domains found in " +:+ filepath +:+ ".")])
      end
  end.

(** The forbidden substrings that [main] configures. *)
Definition forbidden_domains : list string :=
  [".l.google.com"; ".googlevideo.com"].

End Tests.

(** ** scripts/dnscheck.py *)

Module DnsCheck.
Import PyStr.

(** What [resolver.resolve(domain, "NS")] raises, by the first handler of
    [check_domain] that the exception reaches.  [NXDOMAIN],
    [NoNameservers], [NoAnswer] and [Timeout] are subclasses of
    [DNSException]; [DNSException] here stands for any other instance of
    it, and [OtherException] for any exception outside that class. *)
Inductive dns_exn :=
| NXDOMAIN
| NoNameservers
| NoAnswer
| Timeout
| DNSException (msg : string)
| OtherException (msg : string).

(** The resolver answers with records or raises. *)
Inductive reply :=
| Answer
| Raises (e : dns_exn).

(** [check_domain(domain, resolver)], given what the resolver does for
    this query: [True] means that the domain has no NS records.  The
    traceback that [logging.exception] adds is left out. *)
Definition check_domain (domain : string) (r : reply)
    : bool * list log_entry :=
  match r with
  | Answer => (false, [])
  | Raises NXDOMAIN => (true, [])
  | Raises NoNameservers =>
      (false,
       [(WARNING, "No name servers found for " +:+ domain
                  +:+ ".  Treating as if NS records exist.")])
  | Raises NoAnswer =>
      (false,
       [(WARNING, "No NS answer for " +:+ domain
                  +:+ ". Treating as if NS records exist.")])
  | Raises Timeout =>
      (false,
       [(WARNING, "Timeout resolving " +:+ domain
                  +:+ ". Treating as if NS records exist.")])
  | Raises (DNSException msg) =>
      (false,
       [(ERROR, "DNS Exception for " +:+ domain +:+ ": " +:+ msg
                +:+ ". Treating as if NS records exist.")])
  | Raises (OtherException msg) =>
      (false,
       [(ERROR, "Unexpected error resolving " +:+ domain +:+ ": " +:+ msg
                +:+ ".  Treating as if NS records exist.")])
  end.

Definition input_file : string := "../pihole-google.txt".

(** The state of the reading loop of [main]. *)
Record loop_state := mkLoop {
  queries : nat;                         (* resolver calls made so far *)
  found_domains : nat;
  domains_with_ns_records : list string;
  log : list log_entry
}.

(** The resolver as an oracle: its reply to the [n]-th query. *)
Definition resolver : Type := nat -> string -> reply.

Definition loop_body (resolve : resolver) (st : loop_state) (line : string)
    : loop_state :=
  let line := strip line in
  if truthy line && negb (startswith line "#") then
    let '(no_ns, warnings) := check_domain line (resolve (queries st) line) in
    if no_ns then
      mkLoop (S (queries st)) (found_domains st + 1)
             (domains_with_ns_records st)
             (log st ++ warnings
              ++ [(INFO, "Domain without NS records: " +:+ line)])
    else
      mkLoop (S (queries st)) (found_domains st)
             (domains_with_ns_records st ++ [line +:+ nl])
             (log st ++ warnings)
  else
    mkLoop (queries st) (found_domains st)
           (domains_with_ns_records st ++ [line +:+ nl])
           (log st).

(** [main]: the files after the run, and the diagnostics. *)
Definition main (resolve : resolver) (files : gmap string string)
    : gmap string string * list log_entry :=
  match files !! input_file with
  | None =>
      (files,
       [(ERROR, "Error: Input file '" +:+ input_file +:+ "' not found.")])
  | Some content =>
      let st := foldl (loop_body resolve) (mkLoop 0 0 [] [])
                      (iter_lines content) in
      (<[input_file := concat (domains_with_ns_records st)]> files,
       log st ++ [(INFO, "Processed domains. Found "
                         +:+ pretty (found_domains st)
                         +:+ " domains without NS records.")])
  end.

End DnsCheck.

(** ** scripts/domain-check-api.py *)

Module DomainCheckApi.
Import PyStr.

(** What [whois.whois(domain)] raises, by the first handler of
    [is_registered] that the exception reaches. *)
Inductive whois_exn :=
| PywhoisError (msg : string)
| WhoisCommandFailed
| UnknownTld
| FailedParsingWhoisOutput
| UnknownDateFormat
| ConnectionRefusedError
| TimeoutError
| OtherException (msg : string).

(** [w.domain_name]: [None], one name or a list of names. *)
Inductive py_names :=
| NoName
| Name (s : string)
| Names (l : list string).

(** The WHOIS record, as far as [is_registered] reads it;
    [name_servers] is [None] when the attribute is not a list. *)
Record whois_entry := mkEntry {
  domain_name : py_names;
  org : option string;
  name_servers : option (list string)
}.

Inductive reply :=
| Answer (w : whois_entry)
| Raises (e : whois_exn).

(** The value that [is_registered] returns: the list
    [[domain_names, org, name_servers]], [False] or [None]. *)
Inductive lookup :=
| Registered (names : list string) (org : option string)
             (servers : list string)
| NotRegistered
| Transient.

(** What the script does, in order. [Report d r] is the line
    [print(f"{d}: {r}")]. *)
Inductive event :=
| Sleep (seconds : nat)
| Query (domain : string)
| Warn (l : level) (msg : string)
| Print (line : string)
| Report (domain : string) (result : lookup).

Definition names_truthy (n : py_names) : bool :=
  match n with
  | NoName => false
  | Name s => truthy s
  | Names [] => false
  | Names (_ :: _) => true
  end.

(** [is_registered(domain)], given the reply of the service. *)
Definition is_registered (domain : string) (r : reply)
    : lookup * list event :=
  let start := [Sleep 1; Query domain] in
  match r with
  | Answer w =>
      if names_truthy (domain_name w) then
        let domain_names :=
          match domain_name w with
          | Names l => l
          | Name s => [s]
          | NoName => []
          end in
        let servers :=
          match name_servers w with
          | Some l => map lower l
          | None => []
          end in
        (Registered domain_names (org w) servers, start)
      else (NotRegistered, start)
  | Raises (PywhoisError msg) =>
      (NotRegistered,
       start ++ [Warn WARNING ("PywhoisError for " +:+ domain +:+ ": "
                               +:+ msg)])
  | Raises WhoisCommandFailed =>
      (NotRegistered,
       start ++ [Warn WARNING ("Whois command failed for " +:+ domain
                               +:+ ".  Likely not registered.")])
  | Raises UnknownTld =>
      (NotRegistered,
       start ++ [Warn WARNING ("Unknown TLD for " +:+ domain +:+ ".")])
  | Raises FailedParsingWhoisOutput =>
      (NotRegistered,
       start ++ [Warn WARNING ("Failed to parse WHOIS output for "
                               +:+ domain)])
  | Raises UnknownDateFormat =>
      (NotRegistered,
       start ++ [Warn WARNING ("Unknown date format in WHOIS output for "
                               +:+ domain)])
  | Raises ConnectionRefusedError =>
      (Transient,
       start ++ [Warn WARNING ("Connection refused for " +:+ domain
                   +:+ ".  May be rate limited.  Pausing for a longer duration");
                 Sleep 30])
  | Raises TimeoutError =>
      (Transient,
       start ++ [Warn WARNING ("Connection timeout for " +:+ domain
                   +:+ ". May be rate limited. Pausing...");
                 Sleep 10])
  | Raises (OtherException msg) =>
      (NotRegistered,
       start ++ [Warn ERROR ("Unexpected error during WHOIS lookup for "
                             +:+ domain +:+ ": " +:+ msg)])
  end.

(** [list(dict.fromkeys(mylist))] *)
Definition remove_duplicates (mylist : list string) : list string :=
  foldl (fun keys k => if bool_decide (k ∈ keys) then keys else keys ++ [k])
        [] mylist.

(** The service as an oracle: its reply to the [n]-th query. *)
Definition whois_service : Type := nat -> string -> reply.

(** The state of [main]: the queries made, the retry list, the events. *)
Record run_state := mkRun {
  queries : nat;
  retry_domains : list string;
  trace : list event
}.

(** The body of the first loop of [main]. *)
Definition main_body (whois : whois_service) (st : run_state)
    (domain : string) : run_state :=
  let '(result, events) := is_registered domain (whois (queries st) domain) in
  match result with
  | Transient =>
      mkRun (S (queries st)) (retry_domains st ++ [domain])
            (trace st ++ events)
  | _ =>
      mkRun (S (queries st)) (retry_domains st)
            (trace st ++ events ++ [Report domain result])
  end.

(** The body of the retry loop. *)
Definition retry_body (whois : whois_service) (st : run_state)
    (domain : string) : run_state :=
  let '(result, events) := is_registered domain (whois (queries st) domain) in
  mkRun (S (queries st)) (retry_domains st)
        (trace st ++ events ++ [Report domain result]).

Definition retry_banner : string :=
  nl +:+ "Retrying domains that encountered temporary errors...".

(** [main], from the list that [get_domains] yields. *)
Definition main (whois : whois_service) (yielded : list string)
    : run_state :=
  let domains := remove_duplicates yielded in
  let st := foldl (main_body whois) (mkRun 0 [] []) domains in
  match retry_domains st with
  | [] => st
  | _ =>
      let st := mkRun (queries st) (retry_domains st)
                      (trace st ++ [Print retry_banner]) in
      foldl (retry_body whois) st (retry_domains st)
  end.

End DomainCheckApi.

(** ** Facts about the string primitives *)

Module PyStrFacts.
Import PyStr.

Lemma sapp_cons (c : ascii) (s t : string) :
  String c s +:+ t = String c (s +:+ t).
Proof. reflexivity. Qed.

Lemma sapp_nil_l (s : string) : EmptyString +:+ s = s.
Proof. reflexivity. Qed.

Lemma sapp_nil_r (s : string) : s +:+ EmptyString = s.
Proof.
  induction s as [|c s IH]; [done | by rewrite sapp_cons, IH].
Qed.

Lemma sapp_assoc (s t u : string) : (s +:+ t) +:+ u = s +:+ t +:+ u.
Proof.
  induction s as [|c s IH]; [done | by rewrite !sapp_cons, IH].
Qed.

Lemma concat_app (l1 l2 : list string) :
  concat (l1 ++ l2) = concat l1 +:+ concat l2.
Proof.
  induction l1 as [|x l1 IH]; [done|].
  cbn [concat app]. by rewrite IH, sapp_assoc.
Qed.

Lemma truthy_true (s : string) : truthy s = true <-> s <> EmptyString.
Proof. destruct s; cbn; split; (done || congruence). Qed.

Lemma truthy_false (s : string) : truthy s = false <-> s = EmptyString.
Proof. destruct s; cbn; split; (done || congruence). Qed.


(** The primitives on small inputs. *)
Example strip_both_ends : strip ("  a b " +:+ nl) = "a b".
Proof. reflexivity. Qed.

Example strip_blank : strip ("   " +:+ nl) = EmptyString.
Proof. reflexivity. Qed.

Example lstrip_header : strip (lstrip_chars "# " "##  Video X") = "Video X".
Proof. reflexivity. Qed.

Example iter_lines_terminators :
  iter_lines ("a" +:+ nl +:+ "b" +:+ String "013" (String "010" "c"))
  = ["a" +:+ nl; "b" +:+ nl; "c"].
Proof. reflexivity. Qed.

Example lower_keeps_symbols : lower "Analytics&Ads" = "analytics&ads".
Proof. reflexivity. Qed.

Example contains_inside : contains ".l.google.com" "x.l.google.com" = true.
Proof. reflexivity. Qed.

End PyStrFacts.

(** ** The parser and the writer keep the order of the source *)

Module Order.
Import PyStr PyStrFacts Convert.

(** What the source file says, line by line. *)
Definition is_header (line : string) : bool := startswith (strip line) "#".
Definition header_category (line : string) : string :=
  strip (lstrip_chars "# " (strip line)).
Definition is_domain_line (line : string) : bool :=
  negb (is_header line) && truthy (strip line).

(** The categories named by the header lines, one per header. *)
Definition headers (lines : list string) : list string :=
  map header_category (filter (fun l => is_header l = true) lines).

(** A list without its repetitions, each element at its first place. *)
Fixpoint first_seen (l : list string) : list string :=
  match l with
  | [] => []
  | x :: l' => x :: filter (fun y => y <> x) (first_seen l')
  end.

(** The domain lines that stand under a header for category [c], in
    source order; [cur] is the category open at the start of [lines]. *)
Fixpoint domains_under (c : string) (cur : option string)
    (lines : list string) : list string :=
  match lines with
  | [] => []
  | line :: rest =>
      if is_header line then
        domains_under c (Some (header_category line)) rest
      else if truthy (strip line) then
        (if decide (cur = Some c) then [strip line] else [])
        ++ domains_under c cur rest
      else domains_under c cur rest
  end.

Definition keys (d : document) : list string := map fst d.

Lemma has_key_true k d : has_key k d = true <-> k ∈ keys d.
Proof.
  induction d as [|[k' v] d IH]; cbn.
  - split; [done | by intros ?%elem_of_nil].
  - rewrite orb_true_iff, IH, String.eqb_eq, elem_of_cons. done.
Qed.

Lemma has_key_false k d : has_key k d = false <-> k ∉ keys d.
Proof.
  rewrite <- has_key_true. destruct (has_key k d); split; congruence.
Qed.

(** A repeated header leaves the dictionary as it is. *)
Lemma setdefault_present k d : k ∈ keys d -> setdefault k d = d.
Proof. intros H%has_key_true. unfold setdefault. by rewrite H. Qed.

Lemma setdefault_absent k d : k ∉ keys d -> setdefault k d = d ++ [(k, [])].
Proof. intros H%has_key_false. unfold setdefault. by rewrite H. Qed.

Definition extend_at (k x : string) (kv : string * list string)
    : string * list string :=
  (kv.1, kv.2 ++ (if decide (Some k = Some kv.1) then [x] else [])).

Lemma append_at_present k x d :
  NoDup (keys d) -> k ∈ keys d ->
  append_at k x d = Some (map (extend_at k x) d).
Proof.
  induction d as [|[k' v] d IH]; cbn; intros Hnd Hin.
  - by apply elem_of_nil in Hin.
  - apply NoDup_cons in Hnd as [Hk' Hnd].
    unfold extend_at at 1; cbn.
    destruct (String.eqb_spec k k') as [->|Hne].
    + rewrite decide_True by done. do 2 f_equal.
      symmetry. rewrite <- (map_id d) at 2. apply map_ext_in.
      intros [k'' v''] Hin'%list_elem_of_In. unfold extend_at; cbn.
      rewrite decide_False; [by rewrite app_nil_r|].
      intros [= ->]. apply Hk'. change k'' with (k'', v'').1.
      by apply list_elem_of_fmap_2.
    + rewrite decide_False by congruence. rewrite app_nil_r.
      apply elem_of_cons in Hin as [?|Hin]; [done|].
      by rewrite IH.
Qed.

Lemma keys_map_extend k x d : keys (map (extend_at k x) d) = keys d.
Proof. unfold keys. rewrite map_map. by apply map_ext. Qed.

(** The keys that a run of headers [ks] adds to [d], and their entries. *)
Definition fresh (d : document) (ks : list string) : list string :=
  filter (fun k => k ∉ keys d) ks.

Definition blank (ks : list string) : document :=
  map (fun k => (k, [])) ks.

Definition under (cur : option string) (lines : list string)
    (kv : string * list string) : string * list string :=
  (kv.1, kv.2 ++ domains_under kv.1 cur lines).

Lemma keys_blank ks : keys (blank ks) = ks.
Proof.
  unfold keys, blank. rewrite map_map. cbn. apply map_id.
Qed.

Lemma setdefault_fresh c d ks :
  setdefault c d ++ blank (fresh (setdefault c d) ks)
  = d ++ blank (fresh d (c :: filter (fun y => y <> c) ks)).
Proof.
  destruct (decide (c ∈ keys d)) as [Hin|Hout].
  - rewrite setdefault_present by done. do 2 f_equal. unfold fresh.
    rewrite filter_cons_False by (intros H; by apply H).
    rewrite list_filter_filter. apply list_filter_iff.
    intros k. split; [|tauto]. intros Hk. split; [done|].
    by intros ->.
  - rewrite setdefault_absent by done. rewrite <- List.app_assoc.
    f_equal. unfold fresh. rewrite filter_cons_True by done.
    cbn. f_equal. f_equal. rewrite list_filter_filter.
    apply list_filter_iff. intros k. unfold keys.
    rewrite map_app. cbn. rewrite elem_of_app, list_elem_of_singleton.
    tauto.
Qed.

Lemma NoDup_keys_setdefault c d :
  NoDup (keys d) -> NoDup (keys (setdefault c d)).
Proof.
  intros Hnd. destruct (decide (c ∈ keys d)) as [Hin|Hout].
  - by rewrite setdefault_present.
  - rewrite setdefault_absent by done. unfold keys. rewrite map_app.
    apply NoDup_app. split_and!; [done| |apply NoDup_singleton].
    intros k Hk ->%list_elem_of_singleton. done.
Qed.

Lemma elem_of_keys_setdefault c d : c ∈ keys (setdefault c d).
Proof.
  destruct (decide (c ∈ keys d)) as [Hin|Hout].
  - by rewrite setdefault_present.
  - rewrite setdefault_absent by done. unfold keys. rewrite map_app.
    apply elem_of_app. right. by apply list_elem_of_singleton.
Qed.

(** The dictionary that [read_loop] returns, in terms of the source
    lines alone. *)
Lemma read_loop_spec lines : forall cat d d',
  NoDup (keys d) ->
  (forall c, cat = Some c -> c ∈ keys d) ->
  read_loop cat lines d = (d', None) ->
  d' = map (under cat lines)
           (d ++ blank (fresh d (first_seen (headers lines)))).
Proof.
  induction lines as [|line rest IH]; intros cat d d' Hnd Hcat Hrun.
  - cbn in Hrun. injection Hrun as <-. cbn. rewrite app_nil_r.
    rewrite <- (map_id d) at 1. apply map_ext. intros [k v].
    unfold under; cbn. by rewrite app_nil_r.
  - cbn [read_loop] in Hrun. unfold headers. fold (is_header line) in Hrun.
    destruct (is_header line) eqn:Hh.
    + fold (header_category line) in Hrun.
      apply IH in Hrun;
        [|by apply NoDup_keys_setdefault
         |intros c [= <-]; apply elem_of_keys_setdefault].
      rewrite filter_cons_True by done. cbn [map first_seen].
      fold (headers rest). rewrite <- setdefault_fresh. rewrite Hrun.
      apply map_ext. intros [k v]. unfold under; cbn. by rewrite Hh.
    + rewrite filter_cons_False by congruence. fold (headers rest).
      destruct (truthy (strip line)) eqn:Ht.
      * destruct cat as [c|]; [|done].
        rewrite append_at_present in Hrun by auto.
        apply IH in Hrun;
          [|by rewrite keys_map_extend|by rewrite keys_map_extend].
        rewrite Hrun. unfold fresh. rewrite keys_map_extend.
        rewrite !map_app, map_map. f_equal.
        -- apply map_ext. intros [k v]. unfold under, extend_at; cbn.
           rewrite Hh, Ht. by rewrite <- List.app_assoc.
        -- apply map_ext_in. intros [k v] Hin. unfold under; cbn.
           rewrite Hh, Ht. rewrite decide_False; [done|].
           intros [= ->]. apply list_elem_of_In in Hin.
           assert (k ∈ keys (blank (filter (fun k => k ∉ keys d)
                                      (first_seen (headers rest))))) as Hk.
           { change k with (k, v).1. by apply list_elem_of_fmap_2. }
           rewrite keys_blank in Hk.
           apply list_elem_of_filter in Hk as [Hk _]. by apply Hk, Hcat.
      * apply IH in Hrun; [|done..]. rewrite Hrun.
        apply map_ext. intros [k v]. unfold under; cbn.
        by rewrite Hh, Ht.
Qed.

(** Every entry that the parser stores is a non-empty string. *)
Lemma domains_under_truthy c lines : forall cur,
  Forall (fun e => truthy e = true) (domains_under c cur lines).
Proof.
  induction lines as [|line rest IH]; intros cur; cbn; [constructor|].
  destruct (is_header line); [apply IH|].
  destruct (truthy (strip line)) eqn:Ht; [|apply IH].
  apply Forall_app. split; [|apply IH].
  case_decide; [by repeat constructor | constructor].
Qed.

(** The text of one category as [_write_blocklist] lays it out. *)
Definition section_text (line_formatter : string -> string)
    (category : string) (entries : list string) : string :=
  "# " +:+ category +:+ nl +:+ concat (map line_formatter entries).

Lemma write_entries_spec fmt entries : forall f,
  write_entries fmt f entries
  = f +:+ concat (map fmt (filter (fun e => truthy e = true) entries)).
Proof.
  unfold write_entries.
  induction entries as [|e es IH]; intros f; cbn [foldl].
  - by rewrite filter_nil, sapp_nil_r.
  - rewrite IH. destruct (truthy e) eqn:He.
    + rewrite filter_cons_True by done. cbn [map concat].
      by rewrite sapp_assoc.
    + rewrite filter_cons_False; [done | congruence].
Qed.

Lemma filter_truthy_id entries :
  Forall (fun e => truthy e = true) entries ->
  filter (fun e => truthy e = true) entries = entries.
Proof.
  induction 1 as [|e es He _ IH]; [done|].
  by rewrite filter_cons_True, IH.
Qed.

Lemma write_categories_spec fmt d : forall f,
  write_categories fmt f d
  = f +:+ concat (map (fun kv =>
                         section_text fmt kv.1
                           (filter (fun e => truthy e = true) kv.2)) d).
Proof.
  unfold write_categories.
  induction d as [|[c es] d IH]; intros f; cbn [foldl].
  - by rewrite sapp_nil_r.
  - rewrite IH, write_entries_spec. cbn [map concat fst snd].
    unfold section_text. by rewrite !sapp_assoc.
Qed.

(** The text of a blocklist file, read off the source lines: the two
    header lines, then one section per category in first-seen order, each
    with the domains of that category in source order. *)
Definition ordered_text (about ts : string)
    (line_formatter : string -> string) (lines : list string) : string :=
  ("# " +:+ about +:+ nl) +:+ ("# Last updated: " +:+ ts +:+ nl)
  +:+ concat (map (fun c => section_text line_formatter c
                              (domains_under c None lines))
                  (first_seen (headers lines))).

Lemma parsed_document lines d :
  read_loop None lines [] = (d, None) ->
  d = map (fun c => (c, domains_under c None lines))
          (first_seen (headers lines)).
Proof.
  intros Hrun. apply read_loop_spec in Hrun;
    [|apply NoDup_nil_2|done].
  rewrite Hrun. cbn [app]. unfold blank, fresh. rewrite map_map.
  cbn. f_equal. clear Hrun.
  induction (first_seen (headers lines)) as [|k ks IH]; [done|].
  rewrite filter_cons_True by apply not_elem_of_nil. by rewrite IH.
Qed.

Lemma blocklist_text_parsed about ts fmt lines d :
  read_loop None lines [] = (d, None) ->
  blocklist_text about ts fmt d = ordered_text about ts fmt lines.
Proof.
  intros ->%parsed_document. unfold blocklist_text, ordered_text.
  rewrite write_categories_spec, map_map. cbn [fst snd].
  rewrite !sapp_nil_l, !sapp_assoc. do 7 f_equal.
  apply map_ext. intros c.
  by rewrite filter_truthy_id by apply domains_under_truthy.
Qed.

(** C1.  For a source file that parses, the categories of the dictionary
    are the header categories in first-seen order, the entries of each
    category are the domain lines standing under its headers in source
    order (so a repeated header adds to the entries already there), a
    header for a key already present leaves the dictionary unchanged, and
    whatever [_write_blocklist] writes, for any file name and line
    format, is the text laid out in exactly that order. *)
Theorem source_order_preserved (content : string) (d : document) :
  read_loop None (iter_lines content) [] = (d, None) ->
  let lines := iter_lines content in
  keys d = first_seen (headers lines) /\
  (forall c es, In (c, es) d -> es = domains_under c None lines) /\
  (forall c d0, c ∈ keys d0 -> setdefault c d0 = d0) /\
  (forall s filename fmt,
      data s = d ->
      let s' := (_write_blocklist filename fmt s).2 in
      fs s' !! filename
      = Some (ordered_text BLOCKLIST_ABOUT (timestamp s) fmt lines)).
Proof.
  intros Hrun lines. split_and!.
  - apply parsed_document in Hrun. rewrite Hrun. unfold keys.
    rewrite map_map. cbn. apply map_id.
  - intros c es Hin. apply parsed_document in Hrun. rewrite Hrun in Hin.
    apply in_map_iff in Hin as (c' & [= <- <-] & _). done.
  - apply setdefault_present.
  - intros s filename fmt Hd. unfold _write_blocklist. mstep.
    rewrite lookup_insert_eq.
    rewrite Hd. f_equal. by apply blocklist_text_parsed.
Qed.

(** A source with a repeated header, and what the parser makes of it. *)
Definition example_source : string :=
  "# Ads" +:+ nl +:+ "a.com" +:+ nl +:+ nl +:+ " b.com " +:+ nl
  +:+ "#  Video X" +:+ nl +:+ "a.com" +:+ nl +:+ "# Ads" +:+ nl +:+ "c.com".

Definition example_document : document :=
  [("Ads", ["a.com"; "b.com"; "c.com"]); ("Video X", ["a.com"])].

Lemma source_order_preserved_witness :
  read_loop None (iter_lines example_source) []
  = (example_document, None) /\
  keys example_document = ["Ads"; "Video X"].
Proof.
  split; [reflexivity|].
  exact (proj1 (source_order_preserved example_source example_document
                  eq_refl)).
Defined.

End Order.

(** ** The line formats *)

Module Formats.
Import PyStr PyStrFacts Convert Order.

(** The two header lines of every blocklist file. *)
Definition preamble (ts : string) : string :=
  ("# " +:+ BLOCKLIST_ABOUT +:+ nl) +:+ ("# Last updated: " +:+ ts +:+ nl).

(** The non-empty entries of a category, each on a line made by [fmt],
    under the marker line of the category. *)
Definition sections (fmt : string -> string) (d : document) : string :=
  concat (map (fun kv =>
                 section_text fmt kv.1
                   (filter (fun e => e <> EmptyString) kv.2)) d).

Lemma written_text filename fmt s :
  fs (_write_blocklist filename fmt s).2 !! filename
  = Some (preamble (timestamp s) +:+ sections fmt (data s)).
Proof.
  unfold _write_blocklist. mstep. rewrite lookup_insert_eq. f_equal.
  unfold blocklist_text, preamble, sections.
  rewrite write_categories_spec, !sapp_nil_l, !sapp_assoc.
  do 7 f_equal. apply map_ext. intros [c es]. cbn. f_equal.
  apply list_filter_iff. intros e. apply truthy_true.
Qed.

(** C2.  Each emitter maps a domain [d] to its one line, newline
    included: [0.0.0.0 d] for Pi-hole, [local-zone: "d" always_refuse] for
    Unbound, [||d^] for AdGuard and [||d^$important] for the important
    variant; the four actions write a file made of the two header lines
    and, per category, these lines for its non-empty entries; and for
    [doubleclick.net] the lines are the four of the specification. *)
Theorem emitters_exact (d : string) (s : state) :
  (pihole_line d = "0.0.0.0 " +:+ d +:+ nl /\
   unbound_line d
   = "local-zone: " +:+ dquote +:+ d +:+ dquote +:+ " always_refuse" +:+ nl /\
   adguard_line d = "||" +:+ d +:+ "^" +:+ nl /\
   adguard_important_line d = "||" +:+ d +:+ "^$important" +:+ nl) /\
  (fs (pihole s).2 !! PIHOLE_FILE
   = Some (preamble (timestamp s)
           +:+ sections (fun e => "0.0.0.0 " +:+ e +:+ nl) (data s)) /\
   fs (unbound s).2 !! UNBOUND_FILE
   = Some (preamble (timestamp s)
           +:+ sections (fun e => "local-zone: " +:+ dquote +:+ e +:+ dquote
                                  +:+ " always_refuse" +:+ nl) (data s)) /\
   fs (adguard s).2 !! ADGUARD_FILE
   = Some (preamble (timestamp s)
           +:+ sections (fun e => "||" +:+ e +:+ "^" +:+ nl) (data s)) /\
   fs (adguard_important s).2 !! ADGUARD_IMPORTANT_FILE
   = Some (preamble (timestamp s)
           +:+ sections (fun e => "||" +:+ e +:+ "^$important" +:+ nl)
                        (data s))) /\
  (pihole_line "doubleclick.net" = "0.0.0.0 doubleclick.net" +:+ nl /\
   unbound_line "doubleclick.net"
   = "local-zone: " +:+ dquote +:+ "doubleclick.net" +:+ dquote
     +:+ " always_refuse" +:+ nl /\
   adguard_line "doubleclick.net" = "||doubleclick.net^" +:+ nl /\
   adguard_important_line "doubleclick.net"
   = "||doubleclick.net^$important" +:+ nl).
Proof.
  split_and!; try reflexivity; apply written_text.
Qed.

(** The Pi-hole file for the one-entry document of the specification. *)
Example pihole_file_for_ads :
  fs (pihole (mkState [("Ads", ["doubleclick.net"])] "2024-01-01" ∅ ∅ [] [])).2
  !! PIHOLE_FILE
  = Some ("# " +:+ BLOCKLIST_ABOUT +:+ nl
          +:+ "# Last updated: 2024-01-01" +:+ nl
          +:+ "# Ads" +:+ nl
          +:+ "0.0.0.0 doubleclick.net" +:+ nl).
Proof. unfold pihole. rewrite written_text. reflexivity. Qed.

End Formats.

(** ** A domain line before any header *)

Module Failure.
Import PyStr PyStrFacts Convert Order.

Definition missing_category : exn :=
  ValueError "Unable to store item without category".

Lemma read_loop_missing pre line post d :
  Forall (fun l => is_header l = false) pre ->
  is_domain_line line = true ->
  read_loop None (pre ++ line :: post) d = (d, Some missing_category).
Proof.
  intros Hpre Hline. apply andb_true_iff in Hline as [Hh Ht].
  apply negb_true_iff in Hh.
  induction Hpre as [|l pre Hl _ IH]; cbn [app read_loop].
  - fold (is_header line). by rewrite Hh, Ht.
  - fold (is_header l). rewrite Hl. by destruct (truthy (strip l)).
Qed.

Lemma read_missing today files content pre line post :
  files !! INPUT_FILE = Some content ->
  iter_lines content = pre ++ line :: post ->
  Forall (fun l => is_header l = false) pre ->
  is_domain_line line = true ->
  read (initial today files)
  = (SysExit 1,
     mkState [] today files ∅
             [(ERROR, "Unable to store item without category")] []).
Proof.
  intros Hfile Hlines Hpre Hline. unfold read, initial. mstep.
  rewrite Hfile, Hlines. mstep.
  rewrite (read_loop_missing pre line post [] Hpre Hline).
  reflexivity.
Qed.

Lemma run_read_exit action candidates s code s' :
  read s = (SysExit code, s') ->
  run action candidates s = (SysExit code, s').
Proof.
  intros Hread. unfold run. unfold mbind at 1. unfold M_bind, bind.
  by rewrite Hread.
Qed.

Definition valid_subcommand (sub : option string) : Prop :=
  exists a, sub = Some a /\ a ∈ action_candidates ++ special_candidates.

(** C3.  When a non-blank, non-comment line comes before any header,
    parsing stops with the missing-category error on an empty dictionary;
    the process, whatever the subcommand, ends with status 1 having
    written no file, created no directory and printed nothing; and for a
    valid subcommand its only diagnostic is the error of the parser. *)
Theorem parse_failure_aborts (today : string) (sub : option string)
    (files : gmap string string) (content : string)
    (pre : list string) (line : string) (post : list string) :
  files !! INPUT_FILE = Some content ->
  iter_lines content = pre ++ line :: post ->
  Forall (fun l => is_header l = false) pre ->
  is_domain_line line = true ->
  read_loop None (iter_lines content) [] = ([], Some missing_category) /\
  (process today sub files).1 = 1%Z /\
  fs (process today sub files).2 = files /\
  dirs (process today sub files).2 = ∅ /\
  stdout (process today sub files).2 = [] /\
  data (process today sub files).2 = [] /\
  (valid_subcommand sub ->
   log (process today sub files).2
   = [(ERROR, "Unable to store item without category")]).
Proof.
  intros Hfile Hlines Hpre Hline.
  pose proof (read_missing today files content pre line post
                Hfile Hlines Hpre Hline) as Hread.
  split; [rewrite Hlines; by apply read_loop_missing|].
  unfold process, main.
  destruct sub as [a|]; [|by split_and!; [..|intros (? & [=] & _)]].
  case_bool_decide as Hvalid.
  - rewrite (run_read_exit _ _ _ _ _ Hread). by split_and!.
  - split_and!; try done. intros (a' & [= <-] & Ha'). done.
Qed.

(** A source whose first line is a bare domain. *)
Definition headless_source : string :=
  "doubleclick.net" +:+ nl +:+ "# Ads" +:+ nl +:+ "a.com" +:+ nl.

Lemma parse_failure_aborts_witness :
  (process "2024-01-01" (Some "all") {[ INPUT_FILE := headless_source ]}).1
  = 1%Z /\
  fs (process "2024-01-01" (Some "all")
        {[ INPUT_FILE := headless_source ]}).2
  = {[ INPUT_FILE := headless_source ]}.
Proof.
  pose proof (parse_failure_aborts "2024-01-01" (Some "all")
                {[ INPUT_FILE := headless_source ]} headless_source
                [] ("doubleclick.net" +:+ nl)
                ["# Ads" +:+ nl; "a.com" +:+ nl]
                (lookup_singleton_eq _ _) eq_refl (Forall_nil_2 _) eq_refl)
    as (_ & Hstatus & Hfs & _).
  exact (conj Hstatus Hfs).
Defined.

End Failure.

(** ** Two runs over the same source *)

Module Determinism.
Import PyStr PyStrFacts Convert.

(** The files after a sequence of writes, oldest first. *)
Definition write_all (ws : list (string * string))
    (files : gmap string string) : gmap string string :=
  foldl (fun m '(p, c) => <[p := c]> m) files ws.

Lemma write_all_snoc ws p c files :
  write_all (ws ++ [(p, c)]) files = <[p := c]> (write_all ws files).
Proof. unfold write_all. by rewrite foldl_app. Qed.

Lemma lookup_write_all_agree ws : forall (m1 m2 : gmap string string) p,
  m1 !! p = m2 !! p -> write_all ws m1 !! p = write_all ws m2 !! p.
Proof.
  induction ws as [|[q c] ws IH]; intros m1 m2 p Hp; [done|].
  cbn. apply IH. rewrite !lookup_insert. by case_decide.
Qed.

Lemma lookup_write_all_written ws : forall (m1 m2 : gmap string string) p,
  p ∈ ws.*1 -> write_all ws m1 !! p = write_all ws m2 !! p.
Proof.
  induction ws as [|[q c] ws IH]; intros m1 m2 p Hp.
  - by apply elem_of_nil in Hp.
  - cbn in Hp. apply elem_of_cons in Hp as [->|Hp]; cbn.
    + apply lookup_write_all_agree. by rewrite !lookup_insert_eq.
    + by apply IH.
Qed.

Section TwoRuns.
Variables files1 files2 : gmap string string.
Hypothesis same_source : files1 !! INPUT_FILE = files2 !! INPUT_FILE.

(** Two states that differ at most in the files that the runs started
    from: everything else is equal, and the same writes were made. *)
Definition alike (s1 s2 : state) : Prop :=
  data s1 = data s2 /\ timestamp s1 = timestamp s2 /\
  dirs s1 = dirs s2 /\ log s1 = log s2 /\ stdout s1 = stdout s2 /\
  exists ws, fs s1 = write_all ws files1 /\ fs s2 = write_all ws files2.

(** A computation that cannot tell such states apart. *)
Definition respects {A} (m : M A) : Prop :=
  forall s1 s2, alike s1 s2 ->
    (m s1).1 = (m s2).1 /\ alike (m s1).2 (m s2).2.

Lemma respects_ret {A} (a : A) : respects (ret a).
Proof. by intros s1 s2 H. Qed.

Lemma respects_raise {A} e : respects (@raise A e).
Proof. by intros s1 s2 H. Qed.

Lemma respects_sys_exit {A} c : respects (@sys_exit A c).
Proof. by intros s1 s2 H. Qed.

Lemma respects_bind {A B} (m : M A) (k : A -> M B) :
  respects m -> (forall a, respects (k a)) -> respects (m ≫= k).
Proof.
  intros Hm Hk s1 s2 H. unfold mbind, M_bind, bind.
  destruct (Hm s1 s2 H) as [Hr Hs].
  destruct (m s1) as [r1 t1], (m s2) as [r2 t2]; cbn in Hr, Hs.
  subst r2. destruct r1 as [a|e|c]; [by apply Hk|done..].
Qed.

Lemma respects_try_except {A} (m : M A) (h : exn -> M A) :
  respects m -> (forall e, respects (h e)) -> respects (try_except m h).
Proof.
  intros Hm Hh s1 s2 H. unfold try_except.
  destruct (Hm s1 s2 H) as [Hr Hs].
  destruct (m s1) as [r1 t1], (m s2) as [r2 t2]; cbn in Hr, Hs.
  subst r2. destruct r1 as [a|e|c]; [done|by apply Hh|done].
Qed.

Lemma respects_for_each {A} (xs : list A) (body : A -> M unit) :
  (forall x, respects (body x)) -> respects (for_each xs body).
Proof.
  intros Hbody. induction xs as [|x xs IH]; cbn [for_each].
  - apply respects_ret.
  - by apply respects_bind.
Qed.

Lemma respects_logging l msg : respects (logging l msg).
Proof.
  intros s1 s2 (? & ? & ? & Hl & ? & ?). unfold logging; cbn.
  rewrite Hl. by repeat split.
Qed.

Lemma respects_print line : respects (print line).
Proof.
  intros s1 s2 (? & ? & ? & ? & Ho & ?). unfold print; cbn.
  rewrite Ho. by repeat split.
Qed.

Lemma respects_get_data : respects get_data.
Proof.
  intros s1 s2 H. split; [|done]. cbn. f_equal. apply H.
Qed.

Lemma respects_get_timestamp : respects get_timestamp.
Proof.
  intros s1 s2 H. split; [|done]. cbn. f_equal. apply H.
Qed.

Lemma respects_set_data d : respects (set_data d).
Proof. intros s1 s2 (? & ? & ? & ? & ? & ?). by repeat split. Qed.

Lemma respects_mkdir p : respects (mkdir p).
Proof.
  intros s1 s2 (? & ? & Hd & ? & ? & ?). unfold mkdir; cbn.
  rewrite Hd. by repeat split.
Qed.

Lemma respects_write_file p c : respects (write_file p c).
Proof.
  intros s1 s2 (? & ? & ? & ? & ? & ws & H1 & H2).
  unfold write_file; cbn. repeat split; try done.
  exists (ws ++ [(p, c)]). by rewrite !write_all_snoc, H1, H2.
Qed.

(** Reading the source is the one place where the files matter, and
    there the two runs see the same contents. *)
Lemma respects_open_read_input : respects (open_read INPUT_FILE).
Proof.
  intros s1 s2 H. pose proof H as (_ & _ & _ & _ & _ & ws & H1 & H2).
  unfold open_read. rewrite H1, H2.
  rewrite (lookup_write_all_agree ws files1 files2 INPUT_FILE same_source).
  by destruct (write_all ws files2 !! INPUT_FILE).
Qed.

Ltac respects_step :=
  first
    [ apply respects_ret | apply respects_raise | apply respects_sys_exit
    | apply respects_logging | apply respects_print
    | apply respects_get_data | apply respects_get_timestamp
    | apply respects_set_data | apply respects_mkdir
    | apply respects_write_file | apply respects_open_read_input
    | apply respects_bind | apply respects_try_except
    | apply respects_for_each | intro ].

Lemma respects_read : respects read.
Proof.
  unfold read. apply respects_try_except.
  - do 4 respects_step.
    destruct (read_loop None (iter_lines a) a0) as [d' [e|]];
      repeat respects_step.
  - intros []; repeat respects_step.
Qed.

Lemma respects_write_blocklist filename fmt :
  respects (_write_blocklist filename fmt).
Proof. unfold _write_blocklist. repeat respects_step. Qed.

Lemma respects_categories : respects categories.
Proof.
  unfold categories. do 5 respects_step. intros [category entries].
  destruct (category_files category) as [e|[text_file parsed_file]].
  - apply respects_raise.
  - apply respects_bind; [|intro]; apply respects_write_blocklist.
Qed.

Lemma respects_report_duplicates hashes : forall found,
  respects (report_duplicates hashes found).
Proof.
  induction hashes as [|[entry count] hashes IH]; intros found;
    cbn [report_duplicates].
  - apply respects_ret.
  - destruct (1 <? count); [|apply IH].
    apply respects_bind; [apply respects_print | intro; apply IH].
Qed.

Lemma respects_duplicates : respects duplicates.
Proof.
  unfold duplicates. do 2 respects_step.
  apply respects_bind; [apply respects_report_duplicates|].
  intros []; cbn [negb]; respects_step.
Qed.

Lemma respects_dump : respects dump.
Proof. unfold dump. repeat respects_step. Qed.

Lemma respects_call_method name : respects (call_method name).
Proof.
  unfold call_method.
  repeat (match goal with
          | |- respects (if ?b then _ else _) => destruct b
          end);
    first [ apply respects_write_blocklist | apply respects_categories
          | apply respects_duplicates | apply respects_read
          | apply respects_dump | apply respects_raise ].
Qed.

Lemma respects_run action candidates : respects (run action candidates).
Proof.
  unfold run. apply respects_bind; [apply respects_read|]. intros _.
  destruct (action =? "json")%string; [apply respects_dump|].
  apply respects_for_each. intros a.
  apply respects_bind; [apply respects_logging|]. intros _.
  apply respects_try_except; [apply respects_call_method|].
  intros []; repeat respects_step.
Qed.

Lemma respects_main sub : respects (main sub).
Proof.
  unfold main. destruct sub as [a|]; [|repeat respects_step].
  case_bool_decide; [apply respects_run | repeat respects_step].
Qed.

Lemma alike_initial today :
  alike (initial today files1) (initial today files2).
Proof. repeat split. by exists []. Qed.

End TwoRuns.

Lemma process_alike (today : string) (sub : option string)
    (files1 files2 : gmap string string) :
  files1 !! INPUT_FILE = files2 !! INPUT_FILE ->
  (process today sub files1).1 = (process today sub files2).1 /\
  alike files1 files2 (process today sub files1).2
                      (process today sub files2).2.
Proof.
  intros Hsrc. unfold process.
  destruct (respects_main files1 files2 Hsrc sub _ _
              (alike_initial files1 files2 today)) as [Hr Halike].
  destruct (main sub (initial today files1)) as [r1 t1].
  destruct (main sub (initial today files2)) as [r2 t2].
  cbn in *. by subst r2.
Qed.

(** C5.  Two runs with the same date and subcommand over file systems
    that hold the same source file end with the same exit status, the same
    standard output and the same diagnostics, and make the same sequence
    of writes: every file written by one run is written by the other with
    identical contents, whatever else the two file systems held. *)
Theorem same_source_same_outputs (today : string) (sub : option string)
    (files1 files2 : gmap string string) :
  files1 !! INPUT_FILE = files2 !! INPUT_FILE ->
  let r1 := process today sub files1 in
  let r2 := process today sub files2 in
  r1.1 = r2.1 /\ stdout r1.2 = stdout r2.2 /\ log r1.2 = log r2.2 /\
  exists ws,
    fs r1.2 = write_all ws files1 /\ fs r2.2 = write_all ws files2 /\
    forall p, p ∈ ws.*1 -> fs r1.2 !! p = fs r2.2 !! p.
Proof.
  intros Hsrc r1 r2. subst r1 r2.
  destruct (process_alike today sub files1 files2 Hsrc)
    as (Hr & _ & _ & _ & Hlog & Hout & ws & H1 & H2).
  split_and!; try done.
  exists ws. split_and!; try done.
  intros p Hp. rewrite H1, H2. by apply lookup_write_all_written.
Qed.

(** Writing the same files again changes nothing. *)
Lemma write_all_twice ws (files : gmap string string) :
  write_all ws (write_all ws files) = write_all ws files.
Proof.
  apply map_eq. intros p. destruct (decide (p ∈ ws.*1)) as [Hin|Hout].
  - by apply lookup_write_all_written.
  - assert (forall (m : gmap string string), write_all ws m !! p = m !! p)
      as Hskip.
    { clear -Hout. induction ws as [|[q c] ws IH]; intros m; [done|].
      cbn in Hout. apply not_elem_of_cons in Hout as [Hne Hout].
      change (write_all ((q, c) :: ws) m)
        with (write_all ws (<[q := c]> m)).
      rewrite IH by done. by rewrite lookup_insert_ne. }
    by rewrite !Hskip.
Qed.

(** Running the converter again on its own result, the source file
    being unchanged, leaves every file as the first run left it. *)
Corollary rerun_identical (today : string) (sub : option string)
    (files : gmap string string) :
  let after := fs (process today sub files).2 in
  after !! INPUT_FILE = files !! INPUT_FILE ->
  fs (process today sub after).2 = after.
Proof.
  intros after Hsrc.
  destruct (process_alike today sub after files Hsrc)
    as (_ & _ & _ & _ & _ & _ & ws & H1 & H2).
  rewrite H1. fold after in H2. rewrite H2. apply write_all_twice.
Qed.

Lemma same_source_same_outputs_witness :
  let files1 : gmap string string :=
    {[ INPUT_FILE := Order.example_source ]} in
  let files2 : gmap string string :=
    <[ "notes.txt" := "unrelated" ]> files1 in
  files1 !! INPUT_FILE = files2 !! INPUT_FILE /\
  (process "2024-01-01" (Some "all") files1).1
  = (process "2024-01-01" (Some "all") files2).1.
Proof.
  intros files1 files2.
  assert (files1 !! INPUT_FILE = files2 !! INPUT_FILE) as Hsrc.
  { subst files2. symmetry. apply lookup_insert_ne. discriminate. }
  split; [exact Hsrc|].
  exact (proj1 (same_source_same_outputs "2024-01-01" (Some "all")
                  files1 files2 Hsrc)).
Defined.

End Determinism.

(** ** The report-only duplicate scan *)

Module Duplicates.
Import PyStr PyStrFacts Convert.

(** Every entry of the document, categories put together. *)
Definition all_entries (d : document) : list string :=
  List.concat (map snd d).

(** How often [e] occurs in a list. *)
Definition occurrences (e : string) (l : list string) : nat :=
  count_occ String.string_dec l e.

(** [h[k]] for a [defaultdict(int)]: 0 when the key is missing. *)
Fixpoint get (k : string) (h : list (string * nat)) : nat :=
  match h with
  | [] => 0
  | (k', n) :: h' => if String.eqb k k' then n else get k h'
  end.

Lemma get_incr_eq e h : get e (incr e h) = S (get e h).
Proof.
  induction h as [|[k n] h IH]; cbn.
  - by rewrite String.eqb_refl.
  - destruct (String.eqb_spec e k) as [->|Hne]; cbn.
    + by rewrite String.eqb_refl.
    + destruct (String.eqb_spec e k); [done | apply IH].
Qed.

Lemma get_incr_ne e k h : k <> e -> get k (incr e h) = get k h.
Proof.
  intros Hne. induction h as [|[k' n] h IH]; cbn.
  - by destruct (String.eqb_spec k e).
  - destruct (String.eqb_spec e k') as [->|Hne']; cbn.
    + by destruct (String.eqb_spec k k').
    + by rewrite IH.
Qed.

Lemma keys_incr e h :
  (incr e h).*1 = if decide (e ∈ h.*1) then h.*1 else h.*1 ++ [e].
Proof.
  induction h as [|[k n] h IH]; cbn.
  - by rewrite decide_False by apply not_elem_of_nil.
  - destruct (String.eqb_spec e k) as [->|Hne]; cbn.
    + by rewrite decide_True by apply list_elem_of_here.
    + rewrite IH. destruct (decide (e ∈ h.*1)) as [Hin|Hout].
      * by rewrite decide_True by by apply list_elem_of_further.
      * rewrite decide_False; [done|].
        by intros [?|?]%elem_of_cons.
Qed.

Lemma elem_of_get k n (h : list (string * nat)) :
  NoDup h.*1 -> (k, n) ∈ h <-> k ∈ h.*1 /\ get k h = n.
Proof.
  induction h as [|[k' n'] h IH]; cbn; intros Hnd.
  - split; [by intros ?%elem_of_nil | by intros [?%elem_of_nil _]].
  - apply NoDup_cons in Hnd as [Hk' Hnd].
    rewrite !elem_of_cons, IH by done.
    destruct (String.eqb_spec k k') as [->|Hne].
    + split.
      * intros [[= ->]|[Hin _]]; [auto | done].
      * intros [_ ->]. by left.
    + split.
      * intros [[= -> _]|[Hin Hg]]; [done | auto].
      * intros [[->|Hin] Hg]; [done | auto].
Qed.

(** The table after counting the entries of [l]. *)
Definition counted (h : list (string * nat)) (l : list string) : Prop :=
  NoDup h.*1 /\
  (forall k, get k h = occurrences k l) /\
  (forall k, k ∈ h.*1 <-> 0 < occurrences k l).

Lemma counted_nil : counted [] [].
Proof.
  split_and!; [apply NoDup_nil_2 | done |].
  intros k. cbn. split; [by intros ?%elem_of_nil | lia].
Qed.

Lemma counted_incr h l e : counted h l -> counted (incr e h) (l ++ [e]).
Proof.
  intros (Hnd & Hget & Hkeys). unfold counted, occurrences in *.
  split_and!.
  - rewrite keys_incr. case_decide as Hin; [done|].
    apply NoDup_app. split_and!; [done| |apply NoDup_singleton].
    by intros k Hk ->%list_elem_of_singleton.
  - intros k. rewrite count_occ_app. cbn.
    destruct (String.string_dec e k) as [->|Hne].
    + rewrite get_incr_eq, Hget. lia.
    + rewrite get_incr_ne, Hget by congruence. lia.
  - intros k. rewrite keys_incr, count_occ_app. cbn.
    destruct (String.string_dec e k) as [->|Hne].
    + split; [lia|]. intros _. case_decide as Hin; [done|].
      apply elem_of_app. right. by apply list_elem_of_singleton.
    + rewrite Nat.add_0_r, <- Hkeys. case_decide as Hin; [done|].
      rewrite elem_of_app, list_elem_of_singleton.
      split; [intros [Hk| ->]; done | auto].
Qed.

Lemma counted_foldl l : forall h l0,
  counted h l0 -> counted (foldl (fun h e => incr e h) h l) (l0 ++ l).
Proof.
  induction l as [|e l IH]; intros h l0 Hc; cbn.
  - by rewrite app_nil_r.
  - replace (l0 ++ e :: l) with ((l0 ++ [e]) ++ l)
      by by rewrite <- List.app_assoc.
    by apply IH, counted_incr.
Qed.

Lemma counted_entries d : counted (count_entries d) (all_entries d).
Proof.
  unfold count_entries, all_entries.
  assert (forall h l0, counted h l0 ->
            counted (foldl (fun h '(_, entries) =>
                              foldl (fun h entry => incr entry h) h entries)
                           h d)
                    (l0 ++ List.concat (map snd d))) as Hgen.
  { induction d as [|[c es] d IH]; intros h l0 Hc; cbn.
    - by rewrite app_nil_r.
    - rewrite List.app_assoc. by apply IH, counted_foldl. }
  apply (Hgen [] []), counted_nil.
Qed.

(** The domains reported: the keys of the table whose count exceeds 1. *)
Definition findings (d : document) : list (string * nat) :=
  filter (fun kv => 1 < kv.2) (count_entries d).

Definition report (fnd : list (string * nat)) : list string :=
  map (fun kv => duplicate_line kv.1 kv.2) fnd.

Lemma report_duplicates_spec hashes : forall found s,
  report_duplicates hashes found s
  = (Ret (found || negb (forallb (fun kv => kv.2 <=? 1) hashes)),
     mkState (data s) (timestamp s) (fs s) (dirs s) (log s)
             (stdout s ++ report (filter (fun kv => 1 < kv.2) hashes))).
Proof.
  induction hashes as [|[entry count] hashes IH]; intros found s;
    cbn [report_duplicates forallb snd].
  - unfold ret. cbn. rewrite app_nil_r, orb_false_r. by destruct s.
  - destruct (Nat.ltb_spec 1 count) as [Hgt|Hle].
    + rewrite filter_cons_True by done.
      replace (count <=? 1) with false
        by (symmetry; apply Nat.leb_gt; lia).
      unfold mbind, M_bind, bind, print. rewrite IH.
      cbn [data timestamp fs dirs log stdout andb negb orb].
      rewrite orb_true_r, <- List.app_assoc. reflexivity.
    + rewrite IH. rewrite filter_cons_False by (cbn; lia).
      replace (count <=? 1) with true
        by (symmetry; apply Nat.leb_le; lia).
      done.
Qed.

Lemma no_findings hashes :
  forallb (fun kv : string * nat => kv.2 <=? 1) hashes = true <->
  filter (fun kv : string * nat => 1 < kv.2) hashes = [].
Proof.
  induction hashes as [|[k n] hashes IH]; cbn [forallb snd]; [done|].
  rewrite andb_true_iff, IH. destruct (Nat.leb_spec n 1) as [Hle|Hgt].
  - rewrite filter_cons_False by (cbn; lia). tauto.
  - rewrite filter_cons_True by done. split; [by intros [? _] | done].
Qed.

(** C6.  The scan returns normally, leaving the document, the files and
    the diagnostics as they were, and adds to the standard output either
    one line per reported domain or, when nothing is reported, the single
    no-duplicates message.  The reported domains are distinct, and a
    domain is reported with count [n] exactly when it occurs [n] times
    among the entries of all categories together and [n] exceeds 1. *)
Theorem duplicates_report (s : state) :
  duplicates s
  = (Ret tt,
     mkState (data s) (timestamp s) (fs s) (dirs s) (log s)
             (stdout s ++
              match findings (data s) with
              | [] => ["No duplicate domains found."]
              | fnd => report fnd
              end)) /\
  NoDup (findings (data s)).*1 /\
  (forall e n,
      (e, n) ∈ findings (data s) <->
      n = occurrences e (all_entries (data s)) /\ 1 < n).
Proof.
  pose proof (counted_entries (data s)) as (Hnd & Hget & Hkeys).
  split_and!.
  - unfold duplicates. unfold mbind, M_bind, bind, get_data.
    rewrite report_duplicates_spec. cbn [orb data timestamp fs dirs log
                                           stdout].
    fold (findings (data s)).
    destruct (forallb _ _) eqn:Hall; cbn [negb].
    + apply no_findings in Hall. fold (findings (data s)) in Hall.
      rewrite Hall. unfold print. cbn. by rewrite app_nil_r.
    + unfold ret. destruct (findings (data s)) eqn:Hf; [|done].
      apply no_findings in Hf. congruence.
  - unfold findings.
    generalize (count_entries (data s)) Hnd. clear.
    induction l as [|[k n] l IH]; intros Hnd; [constructor|].
    cbn in Hnd. apply NoDup_cons in Hnd as [Hk Hnd].
    destruct (decide (1 < n)).
    + rewrite filter_cons_True by done. cbn. apply NoDup_cons.
      split; [|by apply IH]. intros Hin. apply Hk.
      apply list_elem_of_fmap in Hin as ([k' n'] & -> & Hin).
      apply list_elem_of_filter in Hin as [_ Hin].
      change k' with (k', n').1. by apply list_elem_of_fmap_2.
    + rewrite filter_cons_False by done. by apply IH.
  - intros e n. unfold findings. rewrite list_elem_of_filter. cbn.
    rewrite elem_of_get by done. rewrite Hget, Hkeys. split.
    + intros (Hn & _ & <-). done.
    + intros [-> Hn]. split_and!; [done | lia | done].
Qed.

(** The same domain under two categories is reported with count 2; a
    document without repetition gets the single message. *)
Example duplicate_across_categories :
  stdout (duplicates (mkState [("Ads", ["a.com"; "b.com"]); ("Video", ["a.com"])]
                              "2024-01-01" ∅ ∅ [] [])).2
  = ["Domain a.com found 2 times, please remove duplicate domains."].
Proof. reflexivity. Qed.

Example no_duplicate_message :
  stdout (duplicates (mkState [("Ads", ["a.com"; "b.com"]); ("Video", ["c.com"])]
                              "2024-01-01" ∅ ∅ [] [])).2
  = ["No duplicate domains found."].
Proof. reflexivity. Qed.

End Duplicates.

(** ** The names of the per-category files *)

Module Slug.
Import PyStr PyStrFacts Convert.

(** The slug of a category: spaces removed, then lower-cased. *)
Definition slug (category : string) : string :=
  lower (replace_char " " EmptyString category).

(** The characters of a string. *)
Definition chars (s : string) : list ascii := list_ascii_of_string s.

(** The slug is the category with its spaces dropped and every other
    character lower-cased in place. *)
Lemma slug_chars category :
  chars (slug category)
  = map lower_char (filter (fun c => c <> " "%char) (chars category)).
Proof.
  unfold slug, chars.
  induction category as [|c s IH]; [done|].
  cbn [replace_char]. destruct (Ascii.eqb_spec c " ") as [->|Hne].
  - rewrite sapp_nil_l, IH. cbn [list_ascii_of_string].
    by rewrite filter_cons_False by (intros H; by apply H).
  - cbn [lower list_ascii_of_string]. rewrite IH.
    by rewrite filter_cons_True by done.
Qed.

Lemma split_char_plain sep s :
  mem_char sep s = false -> split_char sep s = [s].
Proof.
  induction s as [|c s IH]; [done|]. cbn [mem_char split_char].
  rewrite Ascii.eqb_sym. intros [Hc Hs]%orb_false_iff.
  by rewrite Hc, IH.
Qed.

Lemma rfind_char_plain ch s : mem_char ch s = false -> rfind_char ch s = None.
Proof.
  induction s as [|c s IH]; [done|]. cbn [mem_char rfind_char].
  rewrite Ascii.eqb_sym. intros [Hc Hs]%orb_false_iff.
  by rewrite IH, Hc.
Qed.

Lemma leading_plain ch s : mem_char ch s = false -> leading ch s = 0.
Proof.
  destruct s as [|c s]; [done|]. cbn [mem_char leading].
  rewrite Ascii.eqb_sym. by intros [-> _]%orb_false_iff.
Qed.

(** For a category whose slug is non-empty and has neither a slash nor a
    dot, the two files are [<slug>.txt] and [<slug>parsed] in the
    categories directory. *)
Lemma plain_category_files category :
  slug category <> EmptyString ->
  mem_char "/" (slug category) = false ->
  mem_char "." (slug category) = false ->
  category_files category
  = inr ("categories/" +:+ slug category +:+ ".txt",
         "categories/" +:+ slug category +:+ "parsed").
Proof.
  intros Hne Hslash Hdot. unfold category_files. fold (slug category).
  set (s := slug category) in *.
  assert (Path s = mkPath EmptyString [s]) as HP.
  { unfold Path. rewrite leading_plain by done. cbn [drop].
    apply truthy_true in Hne. rewrite Hne, split_char_plain by done.
    rewrite filter_cons_True; [done|]. unfold is_component.
    rewrite Hne. cbn. apply negb_true_iff, String.eqb_neq.
    intros ->. done. }
  unfold joinpath. rewrite HP. cbn [root parts truthy].
  change (Path CATEGORIES_PATH) with (mkPath EmptyString ["categories"]).
  cbn [root parts app]. unfold with_suffix, path_name.
  cbn [parts List.last]. apply truthy_true in Hne. rewrite Hne.
  unfold name_suffix. rewrite rfind_char_plain by done.
  cbn [negb truthy removelast app root path_str parts join].
  by rewrite !sapp_nil_l, !sapp_assoc.
Qed.

(** C4, at the failing input.  For the category [Google.com] the slug is
    [google.com] and the parsed file is [google.comparsed], but the raw
    file is [google.txt]: [with_suffix] replaces the part of the slug
    after its last dot instead of adding [.txt] to it.  The example of
    the specification, which has no dot, gets the two names it states. *)
Theorem dotted_category_files :
  slug "Google.com" = "google.com" /\
  category_files "Google.com"
  = inr ("categories/google.txt", "categories/google.comparsed") /\
  category_files "Analytics & Ads"
  = inr ("categories/analytics&ads.txt", "categories/analytics&adsparsed").
Proof. by split_and!. Qed.

(** Other category names for which the raw file is not [<slug>.txt] in the
    categories directory: an empty name lands beside the directory, and two
    dotted names can share one raw file. *)
Example empty_category_files :
  category_files EmptyString = inr ("categories.txt", "categoriesparsed").
Proof. reflexivity. Qed.

Example dotted_categories_collide :
  category_files "Google.com" = inr ("categories/google.txt",
                                     "categories/google.comparsed") /\
  category_files "Google.net" = inr ("categories/google.txt",
                                     "categories/google.netparsed").
Proof. by split. Qed.

End Slug.

(** ** The NS check and the rewriting of the source file *)

Module NsCheck.
Import PyStr PyStrFacts DnsCheck.

Lemma check_domain_true domain r :
  (check_domain domain r).1 = true <-> r = Raises NXDOMAIN.
Proof. destruct r as [|[]]; cbn; split; congruence. Qed.

(** C8, as the code has it.  The check answers "no NS records" exactly
    when the resolver raises [NXDOMAIN].  A missing name server, a missing
    answer and a timeout give "has NS records" with one warning; any other
    resolver error gives "has NS records" as well, with one diagnostic at
    error level; an answer gives "has NS records" and logs nothing. *)
Theorem ns_check_conservative (domain : string) :
  (forall r, (check_domain domain r).1 = true <-> r = Raises NXDOMAIN) /\
  ((check_domain domain (Raises NoNameservers)).1 = false /\
   exists msg,
     (check_domain domain (Raises NoNameservers)).2 = [(WARNING, msg)]) /\
  ((check_domain domain (Raises NoAnswer)).1 = false /\
   exists msg,
     (check_domain domain (Raises NoAnswer)).2 = [(WARNING, msg)]) /\
  ((check_domain domain (Raises Timeout)).1 = false /\
   exists msg,
     (check_domain domain (Raises Timeout)).2 = [(WARNING, msg)]) /\
  (forall e,
      (check_domain domain (Raises (DNSException e))).1 = false /\
      exists msg,
        (check_domain domain (Raises (DNSException e))).2 = [(ERROR, msg)]) /\
  (forall e,
      (check_domain domain (Raises (OtherException e))).1 = false /\
      exists msg,
        (check_domain domain (Raises (OtherException e))).2
        = [(ERROR, msg)]) /\
  check_domain domain Answer = (false, []).
Proof.
  split_and!;
    first [ apply check_domain_true | done | eexists; reflexivity
          | intros e; split; [done | eexists; reflexivity] ].
Qed.

(** A resolver error outside the named ones keeps the domain, but what is
    logged is an error, not a warning. *)
Lemma other_error_not_warning :
  let r := check_domain "example.com" (Raises (DNSException "boom")) in
  r.1 = false /\
  r.2 = [(ERROR, "DNS Exception for example.com: boom. Treating as if NS records exist.")] /\
  forall msg, (WARNING, msg) ∉ r.2.
Proof.
  split_and!; [done..|]. intros msg [[=]|[]%elem_of_nil]%elem_of_cons.
Qed.

(** *** The rewriting of the source file *)

(** A line that holds a domain: not blank and not a comment once
    stripped. *)
Definition is_domain (line : string) : bool :=
  truthy (strip line) && negb (startswith (strip line) "#").

(** The lines, each domain line with its rank among the domain lines,
    which is the number of the resolver query made for it. *)
Fixpoint numbered (k : nat) (lines : list string)
    : list (string * option nat) :=
  match lines with
  | [] => []
  | line :: rest =>
      if is_domain line then (line, Some k) :: numbered (S k) rest
      else (line, None) :: numbered k rest
  end.

(** A line is removed when it is a domain line that the check classifies
    as having no NS records. *)
Definition removed (resolve : resolver) (ln : string * option nat) : bool :=
  match ln.2 with
  | Some k => (check_domain (strip ln.1) (resolve k (strip ln.1))).1
  | None => false
  end.

Definition rewritten (resolve : resolver) (lines : list string)
    : list string :=
  map (fun ln => strip ln.1 +:+ nl)
      (filter (fun ln => removed resolve ln = false) (numbered 0 lines)).

Lemma numbered_lines lines : forall k, (numbered k lines).*1 = lines.
Proof.
  induction lines as [|l lines IH]; intros k; cbn; [done|].
  destruct (is_domain l); cbn; by rewrite IH.
Qed.

Lemma loop_spec resolve lines : forall st,
  let st' := foldl (loop_body resolve) st lines in
  domains_with_ns_records st'
  = domains_with_ns_records st
    ++ map (fun ln => strip ln.1 +:+ nl)
           (filter (fun ln => removed resolve ln = false)
                   (numbered (queries st) lines)) /\
  found_domains st'
  = found_domains st
    + length (filter (fun ln => removed resolve ln = true)
                     (numbered (queries st) lines)).
Proof.
  induction lines as [|l lines IH]; intros st; cbn [foldl numbered].
  - cbn. by rewrite app_nil_r, Nat.add_0_r.
  - destruct (IH (loop_body resolve st l)) as [IH1 IH2].
    cbn zeta. rewrite IH1, IH2. clear IH IH1 IH2.
    unfold loop_body, is_domain.
    destruct (truthy (strip l) && negb (startswith (strip l) "#")) eqn:Hd.
    + destruct (check_domain (strip l) (resolve (queries st) (strip l)))
        as [no_ns warnings] eqn:Hc.
      destruct no_ns; cbn [queries found_domains domains_with_ns_records].
      * assert (removed resolve (l, Some (queries st)) = true) as Hrem
          by (unfold removed; cbn [fst snd]; by rewrite Hc).
        rewrite filter_cons_False by congruence.
        rewrite filter_cons_True by done.
        cbn [length]. split; [done | lia].
      * assert (removed resolve (l, Some (queries st)) = false) as Hrem
          by (unfold removed; cbn [fst snd]; by rewrite Hc).
        rewrite filter_cons_True by done.
        rewrite filter_cons_False by congruence.
        cbn [map fst]. by rewrite <- List.app_assoc.
    + cbn [queries found_domains domains_with_ns_records].
      rewrite filter_cons_True by done.
      rewrite filter_cons_False by done.
      cbn [map fst]. by rewrite <- List.app_assoc.
Qed.

(** C10.  When the source file exists, [main] replaces it by its own
    lines, stripped and each ended by a newline, in their order, without
    the removed ones; a line is removed exactly when it is a domain line
    for which the resolver raised [NXDOMAIN], so comment lines, blank
    lines and all other domain lines stay; nothing else in the file
    system changes. *)
Theorem source_rewritten (resolve : resolver) (files : gmap string string)
    (content : string) :
  files !! input_file = Some content ->
  let lines := iter_lines content in
  (main resolve files).1
  = <[input_file := concat (rewritten resolve lines)]> files /\
  (numbered 0 lines).*1 = lines /\
  (forall ln, ln ∈ numbered 0 lines ->
     (removed resolve ln = true <->
      is_domain ln.1 = true /\
      exists k, ln.2 = Some k /\ resolve k (strip ln.1) = Raises NXDOMAIN)).
Proof.
  intros Hfile lines. split_and!.
  - unfold main. rewrite Hfile. cbn [fst]. f_equal. f_equal.
    apply (loop_spec resolve lines (mkLoop 0 0 [] [])).
  - apply numbered_lines.
  - intros [l o] Hin. cbn [fst snd]. unfold removed. cbn [fst snd].
    assert (forall k, o = Some k -> is_domain l = true) as Hdom.
    { clear -Hin. generalize 0 Hin. clear Hin.
      induction lines as [|l' lines IH]; intros n Hin k Hk; cbn in Hin.
      - by apply elem_of_nil in Hin.
      - destruct (is_domain l') eqn:Hd;
          apply elem_of_cons in Hin as [[= -> ->]|Hin]; eauto.
        done. }
    destruct o as [k|].
    + rewrite check_domain_true. split.
      * intros Hr. split; [by eapply Hdom | by exists k].
      * by intros [_ (k' & [= <-] & Hr)].
    + split; [done | by intros [_ (k & [=] & _)]].
Qed.

(** A resolver for which the first domain queried does not exist. *)
Definition first_gone : resolver :=
  fun n _ => match n with 0 => Raises NXDOMAIN | _ => Answer end.

Lemma source_rewritten_witness :
  let content :=
    "# Ads" +:+ nl +:+ " gone.example " +:+ nl +:+ nl +:+ "a.com" in
  let files : gmap string string := {[ input_file := content ]} in
  files !! input_file = Some content /\
  (main first_gone files).1
  = <[ input_file := "# Ads" +:+ nl +:+ nl +:+ "a.com" +:+ nl ]> files.
Proof.
  intros content files.
  assert (files !! input_file = Some content) as Hfile
    by apply lookup_singleton_eq.
  split; [exact Hfile|].
  exact (proj1 (source_rewritten first_gone files content Hfile)).
Defined.

Example timeout_keeps_domain :
  check_domain "example.com" (Raises Timeout)
  = (false,
     [(WARNING,
       "Timeout resolving example.com. Treating as if NS records exist.")]).
Proof. reflexivity. Qed.

End NsCheck.

(** ** The WHOIS run: one deferred retry pass *)

Module WhoisRetry.
Import PyStr PyStrFacts DomainCheckApi.

(** The domains looked up in a stretch of the trace, in order. *)
Definition queried (t : list event) : list string :=
  omap (fun e => match e with Query d => Some d | _ => None end) t.

(** The transient failures: connection refused and timeout. *)
Definition is_transient (r : reply) : bool :=
  match r with
  | Raises ConnectionRefusedError | Raises TimeoutError => true
  | _ => false
  end.

(** The domains of the main pass whose lookup fails transiently; the
    lookup of the domain at position [i] is query number [k + i]. *)
Fixpoint failed_subset (whois : whois_service) (k : nat)
    (domains : list string) : list string :=
  match domains with
  | [] => []
  | d :: ds =>
      if is_transient (whois k d) then d :: failed_subset whois (S k) ds
      else failed_subset whois (S k) ds
  end.

Lemma is_registered_transient d r :
  (is_registered d r).1 = Transient <-> is_transient r = true.
Proof.
  destruct r as [w|[]]; cbn; try (split; congruence).
  destruct (names_truthy (domain_name w)); cbn; split; congruence.
Qed.

Lemma is_registered_failure d e :
  is_transient (Raises e) = false ->
  (is_registered d (Raises e)).1 = NotRegistered.
Proof. by destruct e. Qed.

Lemma is_registered_queried d r : queried (is_registered d r).2 = [d].
Proof.
  destruct r as [w|[]]; cbn; try done.
  by destruct (names_truthy (domain_name w)).
Qed.

Lemma is_registered_no_report d r d' r' :
  Report d' r' ∉ (is_registered d r).2.
Proof.
  destruct r as [w|[]]; cbn;
    [destruct (names_truthy (domain_name w)); cbn|..];
    rewrite ?elem_of_cons; intros H;
    repeat (destruct H as [H|H]; [discriminate H|]);
    by apply elem_of_nil in H.
Qed.

Lemma remove_duplicates_NoDup l : NoDup (remove_duplicates l).
Proof.
  unfold remove_duplicates.
  assert (forall keys, NoDup keys ->
            NoDup (foldl (fun keys k =>
                            if bool_decide (k ∈ keys) then keys
                            else keys ++ [k]) keys l)) as Hgen.
  { induction l as [|k l IH]; intros keys Hnd; [done|]. cbn.
    apply IH. case_bool_decide as Hin; [done|].
    apply NoDup_app. split_and!; [done| |apply NoDup_singleton].
    by intros x Hx ->%list_elem_of_singleton. }
  apply Hgen, NoDup_nil_2.
Qed.

Lemma elem_of_failed_subset whois domains : forall k d,
  d ∈ failed_subset whois k domains <->
  exists i, domains !! i = Some d /\ is_transient (whois (k + i) d) = true.
Proof.
  induction domains as [|d0 ds IH]; intros k d; cbn.
  - split; [by intros ?%elem_of_nil | by intros (i & ? & _)].
  - split.
    + destruct (is_transient (whois k d0)) eqn:Ht.
      * intros [->|Hin]%elem_of_cons.
        -- exists 0. by rewrite Nat.add_0_r.
        -- apply IH in Hin as (i & Hi & Hti). exists (S i).
           by rewrite Nat.add_succ_r.
      * intros (i & Hi & Hti)%IH. exists (S i).
        by rewrite Nat.add_succ_r.
    + intros ([|i] & Hi & Hti); cbn in Hi.
      * injection Hi as ->. rewrite Nat.add_0_r in Hti. rewrite Hti.
        apply list_elem_of_here.
      * rewrite Nat.add_succ_r in Hti.
        assert (d ∈ failed_subset whois (S k) ds) as Hin
          by (apply IH; eauto).
        destruct (is_transient (whois k d0));
          [by apply list_elem_of_further | done].
Qed.

Lemma failed_subset_sublist whois domains : forall k,
  sublist (failed_subset whois k domains) domains.
Proof.
  induction domains as [|d ds IH]; intros k; cbn; [done|].
  destruct (is_transient (whois k d));
    [by apply sublist_skip | by apply sublist_cons].
Qed.

Lemma main_body_transient whois st d :
  is_transient (whois (queries st) d) = true ->
  main_body whois st d
  = mkRun (S (queries st)) (retry_domains st ++ [d])
          (trace st ++ (is_registered d (whois (queries st) d)).2).
Proof.
  intros Ht%(is_registered_transient d). unfold main_body.
  destruct (is_registered d (whois (queries st) d)) as [result events].
  cbn in Ht. by subst result.
Qed.

Lemma main_body_settled whois st d :
  is_transient (whois (queries st) d) = false ->
  main_body whois st d
  = mkRun (S (queries st)) (retry_domains st)
          (trace st ++ (is_registered d (whois (queries st) d)).2
           ++ [Report d (is_registered d (whois (queries st) d)).1]).
Proof.
  intros Ht. unfold main_body.
  pose proof (is_registered_transient d (whois (queries st) d)) as Htr.
  destruct (is_registered d (whois (queries st) d)) as [result events].
  cbn in *. destruct result; [done..|].
  destruct Htr as [Htr _]. specialize (Htr eq_refl). congruence.
Qed.

(** The first loop: every domain is looked up once, in order; the
    transient failures go to the retry list and are not reported, every
    other result is reported. *)
Lemma main_pass_spec whois domains : forall st,
  let st' := foldl (main_body whois) st domains in
  retry_domains st'
  = retry_domains st ++ failed_subset whois (queries st) domains /\
  exists t,
    trace st' = trace st ++ t /\ queried t = domains /\
    (forall d r, Report d r ∈ t ->
       exists i, domains !! i = Some d /\
                 is_transient (whois (queries st + i) d) = false /\
                 r = (is_registered d (whois (queries st + i) d)).1) /\
    (forall i d, domains !! i = Some d ->
       is_transient (whois (queries st + i) d) = false ->
       Report d (is_registered d (whois (queries st + i) d)).1 ∈ t).
Proof.
  induction domains as [|d ds IH]; intros st; cbn [foldl failed_subset].
  - cbn. rewrite app_nil_r. split; [done|]. exists [].
    rewrite app_nil_r. split_and!; [done..| |done].
    by intros d r ?%elem_of_nil.
  - cbn zeta.
    pose proof (is_registered_queried d (whois (queries st) d)) as Hqd.
    pose proof (is_registered_no_report d (whois (queries st) d)) as Hnr.
    destruct (is_transient (whois (queries st) d)) eqn:Ht.
    + rewrite (main_body_transient _ _ _ Ht).
      destruct (IH (mkRun (S (queries st)) (retry_domains st ++ [d])
                     (trace st ++ (is_registered d
                                     (whois (queries st) d)).2)))
        as (Hretry & t & Htrace & Hq & Hrep & Hall).
      cbn [queries retry_domains trace] in *.
      rewrite Hretry, Htrace.
      split; [by rewrite <- List.app_assoc|].
      exists ((is_registered d (whois (queries st) d)).2 ++ t).
      split_and!.
      * by rewrite List.app_assoc.
      * unfold queried in *. by rewrite omap_app, Hqd, Hq.
      * intros d' r' [Hin|Hin]%elem_of_app; [by apply Hnr in Hin|].
        apply Hrep in Hin as (i & Hi & Hti & ->). exists (S i).
        by rewrite Nat.add_succ_r.
      * intros [|i] d' Hi Hti; cbn in Hi.
        -- injection Hi as <-. rewrite Nat.add_0_r in Hti. congruence.
        -- apply elem_of_app. right. rewrite Nat.add_succ_r in *.
           by apply Hall.
    + rewrite (main_body_settled _ _ _ Ht).
      destruct (IH (mkRun (S (queries st)) (retry_domains st)
                     (trace st ++ (is_registered d
                                     (whois (queries st) d)).2
                      ++ [Report d (is_registered d
                                      (whois (queries st) d)).1])))
        as (Hretry & t & Htrace & Hq & Hrep & Hall).
      cbn [queries retry_domains trace] in *.
      rewrite Hretry, Htrace. split; [done|].
      exists ((is_registered d (whois (queries st) d)).2
              ++ [Report d (is_registered d (whois (queries st) d)).1]
              ++ t).
      split_and!.
      * by rewrite <- !List.app_assoc.
      * unfold queried in *. by rewrite !omap_app, Hqd, Hq.
      * intros d' r' [Hin|[Hin|Hin]%elem_of_app]%elem_of_app.
        -- by apply Hnr in Hin.
        -- apply list_elem_of_singleton in Hin as [= -> ->].
           exists 0. by rewrite Nat.add_0_r.
        -- apply Hrep in Hin as (i & Hi & Hti & ->). exists (S i).
           by rewrite Nat.add_succ_r.
      * intros [|i] d' Hi Hti; cbn in Hi.
        -- injection Hi as <-. rewrite Nat.add_0_r.
           apply elem_of_app. right. apply list_elem_of_here.
        -- rewrite Nat.add_succ_r in *.
           apply elem_of_app. right. apply list_elem_of_further.
           by apply Hall.
Qed.

(** The retry loop: every domain of the list is looked up once and its
    result reported, whatever it is. *)
Lemma retry_pass_spec whois l : forall st,
  let st' := foldl (retry_body whois) st l in
  retry_domains st' = retry_domains st /\
  exists t,
    trace st' = trace st ++ t /\ queried t = l /\
    (forall d, d ∈ l -> exists r, Report d r ∈ t).
Proof.
  induction l as [|d l IH]; intros st; cbn [foldl].
  - cbn. split; [done|]. exists []. rewrite app_nil_r.
    split_and!; [done..|]. by intros d ?%elem_of_nil.
  - cbn zeta. destruct (IH (retry_body whois st d))
      as (Hretry & t & Htrace & Hq & Hrep).
    rewrite Hretry, Htrace. clear IH Hretry Htrace.
    unfold retry_body.
    pose proof (is_registered_queried d (whois (queries st) d)) as Hqd.
    destruct (is_registered d (whois (queries st) d)) as [result events].
    cbn [queries retry_domains trace snd] in *. split; [done|].
    exists (events ++ [Report d result] ++ t). split_and!.
    + by rewrite <- !List.app_assoc.
    + unfold queried in *. by rewrite !omap_app, Hqd, Hq.
    + intros d' [->|Hin]%elem_of_cons.
      * exists result. apply elem_of_app. right. apply list_elem_of_here.
      * destruct (Hrep d' Hin) as [r Hr]. exists r.
        apply elem_of_app. right. by apply list_elem_of_further.
Qed.

(** C9.  The run is a main pass followed by a retry pass.  The main pass
    looks up every domain once; the retry pass looks up exactly the
    domains whose main-pass lookup failed transiently, each once.  A
    domain with a transient failure is not reported in the main pass and
    is reported in the retry pass; a domain whose main-pass lookup fails
    otherwise is reported as not registered in the main pass and is not
    retried. *)
Theorem retry_once (whois : whois_service) (yielded : list string) :
  let domains := remove_duplicates yielded in
  let failed := failed_subset whois 0 domains in
  NoDup domains /\ NoDup failed /\
  exists t_main t_retry,
    trace (main whois yielded) = t_main ++ t_retry /\
    queried t_main = domains /\
    queried t_retry = failed /\
    (forall i d,
        domains !! i = Some d -> is_transient (whois i d) = true ->
        d ∈ failed /\ (forall r, Report d r ∉ t_main) /\
        exists r, Report d r ∈ t_retry) /\
    (forall i d e,
        domains !! i = Some d -> whois i d = Raises e ->
        is_transient (Raises e) = false ->
        Report d NotRegistered ∈ t_main /\ d ∉ failed).
Proof.
  intros domains failed.
  pose proof (remove_duplicates_NoDup yielded) as Hnd. fold domains in Hnd.
  assert (NoDup failed) as Hndf
    by exact (sublist_NoDup _ _ Hnd (failed_subset_sublist whois domains 0)).
  split; [done|]. split; [done|].
  destruct (main_pass_spec whois domains (mkRun 0 [] []))
    as (Hretry & t & Htrace & Hq & Hrep & Hall).
  cbn [queries retry_domains trace app] in Hretry, Htrace, Hrep, Hall.
  fold failed in Hretry.
  assert (exists t_retry,
            trace (main whois yielded) = t ++ t_retry /\
            queried t_retry = failed /\
            (forall d, d ∈ failed -> exists r, Report d r ∈ t_retry))
    as (t_retry & Hmain & Hqr & Hrr).
  { unfold main. fold domains.
    set (st := foldl (main_body whois) (mkRun 0 [] []) domains) in *.
    destruct (retry_domains st) as [|d0 rest] eqn:Hrd.
    - exists []. rewrite app_nil_r. split_and!; [done..|].
      rewrite <- Hretry. by intros d ?%elem_of_nil.
    - rewrite Hretry. cbn [retry_domains].
      destruct (retry_pass_spec whois failed
                  (mkRun (queries st) failed
                         (trace st ++ [Print retry_banner])))
        as (_ & t' & Ht' & Hq' & Hr').
      cbn [trace] in Ht'. rewrite Ht', Htrace.
      exists ([Print retry_banner] ++ t'). split_and!.
      + by rewrite <- !List.app_assoc.
      + done.
      + intros d Hd. destruct (Hr' d Hd) as [r Hr]. exists r.
        by apply list_elem_of_further. }
  exists t, t_retry. split_and!; [done..| |].
  - intros i d Hi Ht.
    assert (d ∈ failed) as Hin
      by (apply elem_of_failed_subset; by exists i).
    split_and!; [done| |by apply Hrr].
    intros r (j & Hj & Htj & _)%Hrep.
    assert (i = j) as <- by exact (NoDup_lookup _ _ _ _ Hnd Hi Hj).
    cbn in Htj. congruence.
  - intros i d e Hi Hw Ht. split.
    + specialize (Hall i d Hi). cbn [Nat.add] in Hall. rewrite Hw in Hall.
      rewrite (is_registered_failure d e Ht) in Hall. by apply Hall.
    + intros (j & Hj & Htj)%elem_of_failed_subset.
      assert (i = j) as <- by exact (NoDup_lookup _ _ _ _ Hnd Hi Hj).
      cbn [Nat.add] in Htj. congruence.
Qed.

(** A service that refuses the first connection and answers "unknown TLD"
    afterwards: the first domain is looked up again after the second. *)
Definition refuse_first : whois_service :=
  fun n _ => match n with
             | 0 => Raises ConnectionRefusedError
             | _ => Raises UnknownTld
             end.

Example retry_after_main_pass :
  queried (trace (main refuse_first ["a.com"; "b.net"; "a.com"]))
  = ["a.com"; "b.net"; "a.com"] /\
  retry_domains (main refuse_first ["a.com"; "b.net"; "a.com"]) = ["a.com"].
Proof. by split. Qed.

End WhoisRetry.

(** ** The strict checks of tests.py *)

Module StrictCheck.
Import PyStr PyStrFacts Tests Duplicates.

(** *** Substrings and stripping *)

(** A string that starts and ends with a character that is not white
    space. *)
Definition starts_solid (f : string) : bool :=
  match f with
  | EmptyString => false
  | String c _ => negb (isspace c)
  end.

Fixpoint ends_solid (f : string) : bool :=
  match f with
  | EmptyString => false
  | String c EmptyString => negb (isspace c)
  | String _ f' => ends_solid f'
  end.

Definition solid (f : string) : bool := starts_solid f && ends_solid f.

Lemma prefix_cons c f c' s :
  String.prefix (String c f) (String c' s)
  = if Ascii.ascii_dec c c' then String.prefix f s else false.
Proof. reflexivity. Qed.

Lemma prefix_nil s : String.prefix EmptyString s = true.
Proof. by destruct s. Qed.

Lemma contains_cons f c s :
  contains f (String c s) = String.prefix f (String c s) || contains f s.
Proof. reflexivity. Qed.

Lemma contains_empty f : truthy f = true -> contains f EmptyString = false.
Proof. by destruct f. Qed.

Lemma contains_lstrip f s :
  starts_solid f = true -> contains f (lstrip s) = contains f s.
Proof.
  intros Hf. destruct f as [|c f]; [done|]. cbn in Hf.
  induction s as [|c' s IH]; [done|]. cbn [lstrip].
  destruct (isspace c') eqn:Hc'; [|done].
  rewrite IH, contains_cons, prefix_cons.
  destruct (Ascii.ascii_dec c c') as [->|_]; [|done].
  by rewrite Hc' in Hf.
Qed.

Lemma rstrip_cons c s :
  rstrip (String c s)
  = if isspace c && negb (truthy (rstrip s)) then EmptyString
    else String c (rstrip s).
Proof. reflexivity. Qed.

Lemma prefix_rstrip s : forall f,
  ends_solid f = true -> String.prefix f (rstrip s) = String.prefix f s.
Proof.
  induction s as [|c' s IH]; intros f Hf; [done|].
  destruct f as [|c f]; [done|]. rewrite rstrip_cons.
  destruct (isspace c' && negb (truthy (rstrip s))) eqn:Hgone.
  - apply andb_true_iff in Hgone as [Hc' Hs].
    apply negb_true_iff, truthy_false in Hs.
    rewrite prefix_cons. destruct (Ascii.ascii_dec c c') as [->|_]; [|done].
    destruct f as [|c2 f2].
    + cbn in Hf. by rewrite Hc' in Hf.
    + rewrite <- IH by done. by rewrite Hs.
  - rewrite !prefix_cons. destruct (Ascii.ascii_dec c c'); [|done].
    destruct f as [|c2 f2]; [by rewrite !prefix_nil|].
    by apply IH.
Qed.

Lemma contains_rstrip f s :
  ends_solid f = true -> contains f (rstrip s) = contains f s.
Proof.
  intros Hf. assert (truthy f = true) as Hne by by destruct f.
  induction s as [|c s IH]; [done|].
  rewrite contains_cons, <- (prefix_rstrip (String c s)) by done.
  rewrite rstrip_cons.
  destruct (isspace c && negb (truthy (rstrip s))) eqn:Hgone.
  - apply andb_true_iff in Hgone as [_ Hs].
    apply negb_true_iff, truthy_false in Hs.
    rewrite <- IH, Hs, contains_empty by done. by destruct f.
  - by rewrite contains_cons, IH.
Qed.

(** A solid substring occurs in a line exactly when it occurs in the
    stripped line, which is then not empty. *)
Lemma contains_strip f s :
  solid f = true -> contains f (strip s) = contains f s.
Proof.
  intros [Hs He]%andb_true_iff. unfold strip.
  by rewrite contains_rstrip, contains_lstrip.
Qed.

Lemma contains_truthy f s :
  truthy f = true -> contains f s = true -> truthy s = true.
Proof. intros Hf Hc. destruct s; [|done]. by rewrite contains_empty in Hc. Qed.

Lemma solid_truthy f : solid f = true -> truthy f = true.
Proof. by destruct f. Qed.

(** *** Duplicate lines *)

(** The lines that [check_duplicates] counts: every line, stripped,
    unless it is blank; header and comment lines are among them. *)
Definition counted_lines (content : string) : list string :=
  filter (fun l => truthy l = true) (map strip (iter_lines content)).

Lemma add_count_incr domain counts :
  add_count domain counts = Convert.incr domain counts.
Proof.
  induction counts as [|[k n] counts IH]; cbn; [done|].
  by rewrite IH, Nat.add_1_r.
Qed.

Lemma count_lines_foldl lines : forall counts,
  count_lines lines counts
  = foldl (fun h e => Convert.incr e h) counts
          (filter (fun l => truthy l = true) (map strip lines)).
Proof.
  induction lines as [|l lines IH]; intros counts; cbn [count_lines map].
  - done.
  - destruct (truthy (strip l)) eqn:Ht.
    + rewrite filter_cons_True by done. cbn [foldl].
      by rewrite IH, add_count_incr.
    + rewrite filter_cons_False by congruence. apply IH.
Qed.

Lemma counted_count_lines content :
  counted (count_lines (iter_lines content) []) (counted_lines content).
Proof.
  rewrite count_lines_foldl. apply (counted_foldl _ [] []), counted_nil.
Qed.

Lemma first_duplicate_Some counts d n :
  first_duplicate counts = Some (d, n) -> (d, n) ∈ counts /\ 1 < n.
Proof.
  induction counts as [|[k m] counts IH]; cbn [first_duplicate]; [done|].
  destruct (Nat.ltb_spec 1 m) as [Hgt|Hle].
  - intros ?; simplify_eq. split; [apply list_elem_of_here | done].
  - intros [Hin Hn]%IH. split; [by apply list_elem_of_further | done].
Qed.

Lemma first_duplicate_None counts :
  first_duplicate counts = None <-> forall d n, (d, n) ∈ counts -> n <= 1.
Proof.
  induction counts as [|[k m] counts IH]; cbn [first_duplicate].
  - split; [|done]. by intros _ d n ?%elem_of_nil.
  - destruct (Nat.ltb_spec 1 m) as [Hgt|Hle].
    + split; [done|]. intros H.
      specialize (H k m (list_elem_of_here _ _)). lia.
    + rewrite IH. split.
      * intros H d n [[= -> ->]|Hin]%elem_of_cons; [done | by eapply H].
      * intros H d n Hin. eapply H. by apply list_elem_of_further.
Qed.

Lemma check_duplicates_raises filepath content d n :
  first_duplicate (count_lines (iter_lines content) []) = Some (d, n) ->
  n = occurrences d (counted_lines content) /\ 1 < n /\
  check_duplicates filepath (Some content)
  = (inl (AssertionError (duplicate_message d n filepath)), []).
Proof.
  intros Hfd. pose proof Hfd as [Hin Hn]%first_duplicate_Some.
  destruct (counted_count_lines content) as (Hnd & Hget & _).
  apply elem_of_get in Hin as [_ Hg]; [|done]. rewrite Hget in Hg.
  split_and!; [done..|]. unfold check_duplicates. by rewrite Hfd.
Qed.

Lemma check_duplicates_passes filepath content :
  first_duplicate (count_lines (iter_lines content) []) = None ->
  (forall d, occurrences d (counted_lines content) <= 1) /\
  check_duplicates filepath (Some content)
  = (inr tt, [(INFO, "No duplicate domains found.")]).
Proof.
  intros Hfd. split; [|unfold check_duplicates; by rewrite Hfd].
  intros d. destruct (counted_count_lines content) as (Hnd & Hget & Hkeys).
  destruct (decide (0 < occurrences d (counted_lines content)))
    as [Hpos|]; [|lia].
  apply Hkeys in Hpos. rewrite <- Hget.
  eapply first_duplicate_None; [done|]. by apply elem_of_get.
Qed.

(** *** Forbidden substrings *)

Lemma first_forbidden_Some forbidden domain f :
  first_forbidden forbidden domain = Some f ->
  f ∈ forbidden /\ contains f domain = true.
Proof.
  induction forbidden as [|f0 fs IH]; cbn; [done|].
  destruct (contains f0 domain) eqn:Hc.
  - intros [= <-]. split; [apply list_elem_of_here | done].
  - intros [Hin Hf]%IH. split; [by apply list_elem_of_further | done].
Qed.

Lemma first_forbidden_None forbidden domain :
  first_forbidden forbidden domain = None <->
  forall f, f ∈ forbidden -> contains f domain = false.
Proof.
  induction forbidden as [|f0 fs IH]; cbn.
  - split; [|done]. by intros _ f ?%elem_of_nil.
  - destruct (contains f0 domain) eqn:Hc.
    + split; [done|]. intros H.
      specialize (H f0 (list_elem_of_here _ _)). congruence.
    + rewrite IH. split.
      * intros H f [->|Hin]%elem_of_cons; [done | by apply H].
      * intros H f Hin. apply H. by apply list_elem_of_further.
Qed.

(** No forbidden substring occurs in the line. *)
Definition clean (forbidden : list string) (line : string) : Prop :=
  forall f, f ∈ forbidden -> contains f line = false.

Lemma scan_Some forbidden lines : forall k f n domain,
  Forall (fun f => solid f = true) forbidden ->
  scan k lines forbidden = Some (f, n, domain) ->
  exists i l,
    lines !! i = Some l /\ n = k + i /\ domain = strip l /\
    f ∈ forbidden /\ contains f l = true /\
    (forall j l', j < i -> lines !! j = Some l' -> clean forbidden l').
Proof.
  induction lines as [|l lines IH]; intros k f n domain Hsolid; cbn [scan];
    [done|].
  assert (first_forbidden forbidden (strip l) = None ->
          clean forbidden l) as Hclean.
  { intros Hnone f' Hf'. rewrite <- (contains_strip f' l).
    - by eapply first_forbidden_None.
    - by eapply Forall_forall in Hsolid. }
  assert (truthy (strip l) = false -> clean forbidden l) as Hblank.
  { intros Hb f' Hf'.
    assert (solid f' = true) as Hs by by eapply Forall_forall in Hsolid.
    rewrite <- (contains_strip f' l) by done.
    apply truthy_false in Hb. rewrite Hb.
    by apply contains_empty, solid_truthy. }
  assert (clean forbidden l ->
          scan (S k) lines forbidden = Some (f, n, domain) ->
          exists i l0,
            (l :: lines) !! i = Some l0 /\ n = k + i /\ domain = strip l0 /\
            f ∈ forbidden /\ contains f l0 = true /\
            (forall j l', j < i -> (l :: lines) !! j = Some l' ->
                          clean forbidden l')) as Hnext.
  { intros Hcl (i & l0 & Hi & -> & -> & Hf & Hc & Hbefore)%IH; [|done].
    exists (S i), l0. split_and!; [done | lia | done..|].
    intros [|j] l' Hj Hl'; cbn in Hl'.
    - by injection Hl' as <-.
    - eapply Hbefore; [|done]. lia. }
  destruct (truthy (strip l)) eqn:Ht; [|by apply Hnext, Hblank].
  destruct (first_forbidden forbidden (strip l)) as [f0|] eqn:Hff;
    [|by apply Hnext, Hclean].
  intros [= -> <- <-]. apply first_forbidden_Some in Hff as [Hin Hc].
  exists 0, l. split_and!; [done | lia | done..| |].
  - rewrite <- contains_strip; [done|]. by eapply Forall_forall in Hsolid.
  - intros j l' Hj. lia.
Qed.

Lemma scan_None forbidden lines : forall k,
  Forall (fun f => solid f = true) forbidden ->
  scan k lines forbidden = None ->
  forall l, l ∈ lines -> clean forbidden l.
Proof.
  induction lines as [|l lines IH]; intros k Hsolid; cbn [scan].
  - by intros _ l ?%elem_of_nil.
  - destruct (truthy (strip l)) eqn:Ht.
    + destruct (first_forbidden forbidden (strip l)) as [f0|] eqn:Hff;
        [done|].
      intros Hscan l' [Heq|Hin]%elem_of_cons; [subst l'|by eapply IH].
      intros f Hf. rewrite <- (contains_strip f l).
      * by eapply first_forbidden_None.
      * by eapply Forall_forall in Hsolid.
    + intros Hscan l' [Heq|Hin]%elem_of_cons; [subst l'|by eapply IH].
      intros f Hf.
      assert (solid f = true) as Hs by by eapply Forall_forall in Hsolid.
      rewrite <- (contains_strip f l) by done.
      apply truthy_false in Ht. rewrite Ht.
      by apply contains_empty, solid_truthy.
Qed.

(** C7, as the code has it.  [check_duplicates] raises the assertion
    exactly when some non-blank line, header and comment lines included,
    occurs more than once after stripping, and names such a line with its
    count; otherwise it completes.  [check_regex_domains], for forbidden
    substrings that start and end with a character other than white
    space, raises the assertion exactly when some line contains one of
    them, and names the first such line by its number, counted from 1;
    otherwise it completes. *)
Theorem strict_checks (filepath content : string) (forbidden : list string) :
  Forall (fun f => solid f = true) forbidden ->
  let lines := iter_lines content in
  let entries := counted_lines content in
  let dup := check_duplicates filepath (Some content) in
  let rex := check_regex_domains filepath (Some content) forbidden in
  ((exists d, 1 < occurrences d entries) <->
   exists msg, dup.1 = inl (AssertionError msg)) /\
  (forall msg, dup.1 = inl (AssertionError msg) ->
     exists d, 1 < occurrences d entries /\
               msg = duplicate_message d (occurrences d entries) filepath) /\
  ((forall d, occurrences d entries <= 1) ->
   dup = (inr tt, [(INFO, "No duplicate domains found.")])) /\
  ((exists l f, l ∈ lines /\ f ∈ forbidden /\ contains f l = true) <->
   exists msg, rex.1 = inl (AssertionError msg)) /\
  (forall msg, rex.1 = inl (AssertionError msg) ->
     exists i l f,
       lines !! i = Some l /\ f ∈ forbidden /\ contains f l = true /\
       (forall j l', j < i -> lines !! j = Some l' -> clean forbidden l') /\
       msg = forbidden_message f (S i) (strip l) filepath) /\
  ((forall l, l ∈ lines -> clean forbidden l) ->
   rex = (inr tt, [(INFO, "No forbidden domains found in " +:+ filepath
                          +:+ ".")])).
Proof.
  intros Hsolid lines entries dup rex.
  assert ((exists d n, 1 < occurrences d entries /\
                       n = occurrences d entries /\
                       dup = (inl (AssertionError
                                     (duplicate_message d n filepath)), []))
          \/ ((forall d, occurrences d entries <= 1) /\
              dup = (inr tt, [(INFO, "No duplicate domains found.")])))
    as Hdup.
  { destruct (first_duplicate (count_lines (iter_lines content) []))
      as [[d n]|] eqn:Hfd.
    - left. exists d, n.
      destruct (check_duplicates_raises filepath content d n Hfd)
        as (-> & Hn & Hr). done.
    - right. by apply check_duplicates_passes. }
  assert ((exists i l f,
             lines !! i = Some l /\ f ∈ forbidden /\ contains f l = true /\
             (forall j l', j < i -> lines !! j = Some l' ->
                           clean forbidden l') /\
             rex.1 = inl (AssertionError
                            (forbidden_message f (S i) (strip l) filepath)))
          \/ ((forall l, l ∈ lines -> clean forbidden l) /\
              rex = (inr tt, [(INFO, "No forbidden domains found in "
                                     +:+ filepath +:+ ".")])))
    as Hrex.
  { subst rex. unfold check_regex_domains. fold lines.
    destruct (scan 1 lines forbidden) as [[[f n] domain]|] eqn:Hscan.
    - left. apply scan_Some in Hscan
        as (i & l & Hi & -> & -> & Hf & Hc & Hbefore); [|done].
      by exists i, l, f.
    - right. split; [|done]. by eapply scan_None. }
  split_and!.
  - split.
    + intros [d Hd]. destruct Hdup as [(d' & n & _ & _ & ->)|[Hle _]].
      * by eexists.
      * specialize (Hle d). lia.
    + intros [msg Hmsg]. destruct Hdup as [(d' & n & Hd' & _)|[_ Heq]].
      * by exists d'.
      * by rewrite Heq in Hmsg.
  - intros msg Hmsg. destruct Hdup as [(d & n & Hd & -> & Heq)|[_ Heq]].
    + exists d. split; [done|]. rewrite Heq in Hmsg. by injection Hmsg.
    + by rewrite Heq in Hmsg.
  - intros Hle. destruct Hdup as [(d & n & Hd & _)|[_ Heq]]; [|done].
    specialize (Hle d). lia.
  - split.
    + intros (l & f & Hl & Hf & Hc).
      destruct Hrex as [(i & l' & f' & _ & _ & _ & _ & Heq)|[Hclean _]].
      * by eexists.
      * specialize (Hclean l Hl f Hf). congruence.
    + intros [msg Hmsg].
      destruct Hrex as [(i & l & f & Hi & Hf & Hc & _)|[_ Heq]].
      * exists l, f. split_and!; [|done..].
        apply list_elem_of_lookup. by exists i.
      * by rewrite Heq in Hmsg.
  - intros msg Hmsg.
    destruct Hrex as [(i & l & f & Hi & Hf & Hc & Hb & Heq)|[_ Heq]].
    + exists i, l, f. split_and!; [done..|].
      rewrite Heq in Hmsg. by injection Hmsg.
    + by rewrite Heq in Hmsg.
  - intros Hclean.
    destruct Hrex as [(i & l & f & Hi & Hf & Hc & _)|[_ Heq]]; [|done].
    assert (l ∈ lines) as Hl by (apply list_elem_of_lookup; by exists i).
    specialize (Hclean l Hl f Hf). congruence.
Qed.

(** A source file with a repeated header and no repeated domain: the
    duplicate check fails on the header line. *)
Lemma repeated_header_rejected :
  let content :=
    "# Ads" +:+ nl +:+ "a.com" +:+ nl +:+ "# Ads" +:+ nl +:+ "b.com" +:+ nl in
  let domains :=
    map strip (filter (fun l => Order.is_domain_line l = true)
                      (iter_lines content)) in
  (check_duplicates "pihole-google.txt" (Some content)).1
  = inl (AssertionError
           "Duplicate domain found: '# Ads' occurred 2 times in pihole-google.txt. Please remove duplicate domains.") /\
  domains = ["a.com"; "b.com"] /\
  forall d, occurrences d domains <= 1.
Proof.
  intros content domains.
  assert (domains = ["a.com"; "b.com"]) as Hdomains by reflexivity.
  split_and!; [reflexivity | done |]. intros d. rewrite Hdomains.
  unfold occurrences. cbn [count_occ].
  destruct (String.string_dec "a.com" d) as [<-|_],
           (String.string_dec "b.com" "a.com") as [Heq|_];
    try discriminate Heq; try lia;
    destruct (String.string_dec "b.com" d); lia.
Qed.

Lemma strict_checks_witness :
  Forall (fun f => solid f = true) forbidden_domains /\
  ((exists l f, l ∈ iter_lines Order.example_source /\
                f ∈ forbidden_domains /\ contains f l = true) <->
   exists msg,
     (check_regex_domains "pihole-google.txt" (Some Order.example_source)
        forbidden_domains).1 = inl (AssertionError msg)).
Proof.
  assert (Forall (fun f => solid f = true) forbidden_domains) as Hsolid.
  { repeat constructor. }
  split; [exact Hsolid|].
  exact (proj1 (proj2 (proj2 (proj2
           (strict_checks "pihole-google.txt" Order.example_source
              forbidden_domains Hsolid))))).
Defined.

End StrictCheck.

(** ** More on the parser: outcomes, contents and shape of the document *)

Module ParserFacts.
Import PyStr PyStrFacts Convert Order.

Lemma append_at_Some c x d :
  c ∈ keys d ->
  exists d', append_at c x d = Some d' /\ keys d' = keys d /\
             List.concat (map snd d') ≡ₚ List.concat (map snd d) ++ [x].
Proof.
  induction d as [|[k v] d IH]; cbn; intros Hin.
  - by apply elem_of_nil in Hin.
  - destruct (String.eqb_spec c k) as [->|Hne].
    + eexists. split_and!; [done..|]. cbn.
      rewrite <- !List.app_assoc. apply Permutation_app_head.
      apply Permutation_app_comm.
    + apply elem_of_cons in Hin as [?|Hin]; [done|].
      destruct (IH Hin) as (d' & -> & Hk & Hp). eexists.
      split_and!; [done | unfold keys in *; cbn; by rewrite Hk |]. cbn.
      rewrite Hp. by rewrite <- List.app_assoc.
Qed.

Lemma all_entries_setdefault c d :
  List.concat (map snd (setdefault c d)) = List.concat (map snd d).
Proof.
  unfold setdefault. destruct (has_key c d); [done|].
  rewrite map_app, List.concat_app. cbn. by rewrite app_nil_r.
Qed.

(** Once a category is open, the loop runs to the end of the file. *)
Lemma read_loop_open lines : forall c d,
  c ∈ keys d -> (read_loop (Some c) lines d).2 = None.
Proof.
  induction lines as [|line rest IH]; intros c d Hin; cbn [read_loop];
    [done|].
  destruct (startswith (strip line) "#").
  - apply IH, elem_of_keys_setdefault.
  - destruct (truthy (strip line)); [|by apply IH].
    destruct (append_at_Some c (strip line) d Hin) as (d' & -> & Hk & _).
    apply IH. by rewrite Hk.
Qed.

(** A domain line that no header precedes. *)
Definition headless (lines : list string) : Prop :=
  exists pre line post,
    lines = pre ++ line :: post /\
    Forall (fun l => is_header l = false) pre /\
    is_domain_line line = true.

Lemma headless_cons_blank l lines :
  is_header l = false -> truthy (strip l) = false ->
  headless (l :: lines) -> headless lines.
Proof.
  intros Hh Ht (pre & line & post & Heq & Hpre & Hline).
  destruct pre as [|p pre]; cbn in Heq; injection Heq as <- ->.
  - unfold is_domain_line in Hline. rewrite Ht in Hline.
    by rewrite andb_false_r in Hline.
  - apply Forall_cons in Hpre as [_ Hpre]. by exists pre, line, post.
Qed.

Lemma read_loop_cases (lines : list string) : forall d,
  (headless lines /\
   read_loop None lines d
   = (d, Some (ValueError "Unable to store item without category")))
  \/ (~ headless lines /\ (read_loop None lines d).2 = None).
Proof.
  induction lines as [|line rest IH]; intros d.
  - right. split; [|done]. intros (pre & l & post & Heq & _).
    by destruct pre.
  - cbn [read_loop]. fold (is_header line).
    destruct (is_header line) eqn:Hh.
    + right. split.
      * intros (pre & l & post & Heq & Hpre & Hl).
        destruct pre as [|p pre]; cbn in Heq; injection Heq as <- ->.
        -- unfold is_domain_line in Hl. by rewrite Hh in Hl.
        -- apply Forall_cons in Hpre as [Hp _]. congruence.
      * apply read_loop_open, elem_of_keys_setdefault.
    + destruct (truthy (strip line)) eqn:Ht.
      * left. split; [|done]. exists [], line, rest.
        split_and!; [done | constructor |].
        unfold is_domain_line. by rewrite Hh, Ht.
      * destruct (IH d) as [[Hhl Hr]|[Hhl Hr]].
        -- left. split; [|done].
           destruct Hhl as (pre & l & post & -> & Hpre & Hl).
           exists (line :: pre), l, post.
           split_and!; [done | by constructor | done].
        -- right. split; [|done]. intros Hhl'. apply Hhl.
           by eapply headless_cons_blank.
Qed.

(** The [KeyError] branch of the loop is never taken. *)
Lemma read_loop_no_KeyError (lines : list string) (k : string) :
  (read_loop None lines []).2 <> Some (KeyError k).
Proof.
  destruct (read_loop_cases lines []) as [[_ ->]|[_ ->]]; by cbn.
Qed.

(** X1.  Parsing a file from scratch either succeeds or stops with the
    missing-category error on the empty dictionary, and it fails exactly
    when some domain line has no header before it; the [KeyError] of the
    dictionary access cannot occur. *)
Theorem parse_outcomes (lines : list string) :
  ((read_loop None lines []).2 = None \/
   read_loop None lines []
   = ([], Some (ValueError "Unable to store item without category"))) /\
  ((read_loop None lines []).2 = None <-> ~ headless lines).
Proof.
  destruct (read_loop_cases lines []) as [[Hhl Hr]|[Hhl Hr]].
  - split; [by right|]. rewrite Hr. cbn. split; [done | tauto].
  - split; [by left|]. tauto.
Qed.

(** *** No domain is lost, none is invented *)

(** The domain lines of the source, stripped, in order. *)
Definition domain_lines (lines : list string) : list string :=
  map strip (filter (fun l => is_domain_line l = true) lines).

Lemma read_loop_entries lines : forall cat d d',
  (forall c, cat = Some c -> c ∈ keys d) ->
  read_loop cat lines d = (d', None) ->
  List.concat (map snd d')
  ≡ₚ List.concat (map snd d) ++ domain_lines lines.
Proof.
  unfold domain_lines.
  induction lines as [|line rest IH]; intros cat d d' Hcat Hrun;
    cbn [read_loop] in Hrun.
  - injection Hrun as <-. by rewrite filter_nil, app_nil_r.
  - fold (is_header line) in Hrun. unfold is_domain_line at 1.
    destruct (is_header line) eqn:Hh.
    + rewrite filter_cons_False by (rewrite Hh; cbn; congruence).
      apply IH in Hrun; [|intros c [= <-]; apply elem_of_keys_setdefault].
      by rewrite all_entries_setdefault in Hrun.
    + destruct (truthy (strip line)) eqn:Ht.
      * rewrite filter_cons_True by (rewrite Hh, Ht; done).
        destruct cat as [c|]; [|done].
        destruct (append_at_Some c (strip line) d (Hcat c eq_refl))
          as (d1 & Hd1 & Hk & Hp).
        rewrite Hd1 in Hrun. apply IH in Hrun;
          [|intros c' [= <-]; rewrite Hk; by apply Hcat].
        rewrite Hrun, Hp. cbn [map]. by rewrite <- List.app_assoc.
      * rewrite filter_cons_False by (rewrite Hh, Ht; cbn; congruence).
        by apply IH in Hrun.
Qed.

(** X2.  When parsing succeeds, the entries of all categories together are
    the domain lines of the source, stripped: the same strings with the
    same multiplicities. *)
Theorem parsed_entries_are_domain_lines (content : string) (d : document) :
  read_loop None (iter_lines content) [] = (d, None) ->
  Duplicates.all_entries d ≡ₚ domain_lines (iter_lines content).
Proof.
  intros Hrun. unfold Duplicates.all_entries.
  by rewrite (read_loop_entries _ None [] d) by done.
Qed.

Lemma parsed_entries_are_domain_lines_witness :
  read_loop None (iter_lines example_source) [] = (example_document, None) /\
  Duplicates.all_entries example_document
  ≡ₚ ["a.com"; "b.com"; "a.com"; "c.com"].
Proof.
  split; [reflexivity|].
  exact (parsed_entries_are_domain_lines example_source example_document
           eq_refl).
Defined.

(** *** Stripping twice *)

Lemma lstrip_fixed s :
  match s with
  | EmptyString => True
  | String c _ => isspace c = false
  end -> lstrip s = s.
Proof. destruct s as [|c s]; [done|]. cbn. by intros ->. Qed.

Lemma lstrip_head s :
  match lstrip s with
  | EmptyString => True
  | String c _ => isspace c = false
  end.
Proof.
  induction s as [|c s IH]; [done|]. cbn.
  by destruct (isspace c) eqn:Hc; [|cbn].
Qed.

Lemma rstrip_rstrip s : rstrip (rstrip s) = rstrip s.
Proof.
  induction s as [|c s IH]; [done|]. cbn [rstrip].
  destruct (isspace c && negb (truthy (rstrip s))) eqn:Hgone; [done|].
  cbn [rstrip]. by rewrite IH, Hgone.
Qed.

Lemma rstrip_head s :
  match s with
  | EmptyString => True
  | String c _ => isspace c = false
  end ->
  match rstrip s with
  | EmptyString => s = EmptyString
  | String c _ => isspace c = false
  end.
Proof.
  destruct s as [|c s]; [done|]. cbn [rstrip]. intros Hc.
  by rewrite Hc.
Qed.

Lemma strip_strip s : strip (strip s) = strip s.
Proof.
  unfold strip.
  assert (lstrip (rstrip (lstrip s)) = rstrip (lstrip s)) as ->.
  { apply lstrip_fixed. pose proof (rstrip_head (lstrip s) (lstrip_head s)).
    by destruct (rstrip (lstrip s)). }
  apply rstrip_rstrip.
Qed.

(** *** The shape of a parsed document *)

Lemma first_seen_elem l x : x ∈ first_seen l <-> x ∈ l.
Proof.
  induction l as [|y l IH]; cbn; [done|].
  rewrite !elem_of_cons, list_elem_of_filter, IH.
  destruct (decide (x = y)) as [->|Hne]; [by split; left | tauto].
Qed.

Lemma first_seen_NoDup l : NoDup (first_seen l).
Proof.
  induction l as [|y l IH]; cbn; [constructor|].
  apply NoDup_cons. split; [|by apply NoDup_filter].
  intros [Hne _]%list_elem_of_filter. by apply Hne.
Qed.

(** What the parser keeps of a line: not empty, no white space at either
    end, and not a comment. *)
Definition trimmed_domain (e : string) : Prop :=
  e <> EmptyString /\ strip e = e /\ startswith e "#" = false.

(** X3.  In a document that the parser returns, the categories are
    pairwise distinct and free of surrounding white space, and every entry
    is a non-empty string without surrounding white space that does not
    start with [#]. *)
Theorem parsed_document_shape (content : string) (d : document) :
  read_loop None (iter_lines content) [] = (d, None) ->
  NoDup (keys d) /\
  Forall (fun c => strip c = c) (keys d) /\
  Forall trimmed_domain (Duplicates.all_entries d).
Proof.
  intros Hrun. pose proof Hrun as Hd%parsed_document.
  assert (keys d = first_seen (headers (iter_lines content))) as Hkeys.
  { rewrite Hd. unfold keys. rewrite map_map. cbn. apply map_id. }
  split_and!.
  - rewrite Hkeys. apply first_seen_NoDup.
  - rewrite Hkeys. apply Forall_forall. intros c Hc.
    apply (proj1 (first_seen_elem _ _)) in Hc. unfold headers in Hc. apply list_elem_of_fmap in Hc as (l & -> & _).
    apply strip_strip.
  - unfold Duplicates.all_entries.
    rewrite (read_loop_entries _ None [] d) by done. cbn [map List.concat app].
    apply Forall_forall. intros e He. unfold domain_lines in He.
    apply list_elem_of_fmap in He as (l & -> & Hl).
    apply list_elem_of_filter in Hl as [Hl _].
    apply andb_true_iff in Hl as [Hh Ht]. apply negb_true_iff in Hh.
    split_and!; [by apply truthy_true | apply strip_strip | done].
Qed.

Lemma parsed_document_shape_witness :
  read_loop None (iter_lines example_source) [] = (example_document, None) /\
  NoDup (keys example_document).
Proof.
  split; [reflexivity|].
  exact (proj1 (parsed_document_shape example_source example_document
                  eq_refl)).
Defined.

End ParserFacts.

(** ** Whole runs of the converter *)

Module RunFacts.
Import PyStr PyStrFacts Convert Order ParserFacts.

Definition usage_error : string :=
  "Subcommand not given or invalid, please use one of ['pihole', 'unbound', 'adguard', 'adguard_important', 'categories', 'all', 'duplicates', 'json']".

Lemma read_ok today files content d :
  files !! INPUT_FILE = Some content ->
  read_loop None (iter_lines content) [] = (d, None) ->
  read (initial today files) = (Ret tt, mkState d today files ∅ [] []).
Proof.
  intros Hfile Hrun. unfold read, initial. mstep. rewrite Hfile. mstep.
  by rewrite Hrun.
Qed.

Lemma read_absent today files :
  files !! INPUT_FILE = None ->
  read (initial today files)
  = (SysExit 1,
     mkState [] today files ∅
             [(ERROR, "Input file not found: pihole-google.txt")] []).
Proof. intros Hfile. unfold read, initial. mstep. by rewrite Hfile. Qed.

Lemma run_after_read action candidates s s' :
  read s = (Ret tt, s') ->
  run action candidates s
  = (if String.eqb action "json" then dump
     else for_each (if String.eqb action "all" then candidates else [action])
            (fun action =>
               logging INFO ("Invoking subcommand '" +:+ action +:+ "'");;
               try_except (call_method action)
                 (fun e =>
                    match e with
                    | AttributeError _ =>
                        logging ERROR ("Invalid subcommand: " +:+ action);;
                        sys_exit 1
                    | _ =>
                        logging ERROR ("Error during '" +:+ action +:+ "': "
                                       +:+ str_of_exn e);;
                        sys_exit 1
                    end))) s'.
Proof.
  intros Hread. unfold run. unfold mbind at 1. unfold M_bind, bind.
  by rewrite Hread.
Qed.

Lemma main_valid a :
  a ∈ action_candidates ++ special_candidates ->
  main (Some a) = run a action_candidates.
Proof. intros Ha. unfold main. by rewrite bool_decide_eq_true_2. Qed.

(** X4.  A run that cannot start.  Without a valid subcommand the process
    ends with status 1 and the usage error, and does not look at the source
    file; with a valid subcommand and no source file it ends with status 1
    and the file-not-found error.  Either way nothing is written or
    printed. *)
Theorem startup_failures (today : string) (sub : option string)
    (files : gmap string string) :
  (~ Failure.valid_subcommand sub ->
   process today sub files
   = (1%Z, mkState [] today files ∅ [(ERROR, usage_error)] [])) /\
  (Failure.valid_subcommand sub -> files !! INPUT_FILE = None ->
   process today sub files
   = (1%Z, mkState [] today files ∅
             [(ERROR, "Input file not found: pihole-google.txt")] [])).
Proof.
  split.
  - intros Hinvalid. unfold process, main.
    destruct sub as [a|]; [|done]. case_bool_decide as Ha; [|done].
    destruct Hinvalid. by exists a.
  - intros (a & -> & Ha) Hfile. unfold process. rewrite main_valid by done.
    by rewrite (Failure.run_read_exit _ _ _ _ _ (read_absent _ _ Hfile)).
Qed.

Lemma startup_failures_witness :
  process "2024-01-01" (Some "pihole") ∅
  = (1%Z, mkState [] "2024-01-01" ∅ ∅
            [(ERROR, "Input file not found: pihole-google.txt")] []).
Proof.
  apply (proj2 (startup_failures "2024-01-01" (Some "pihole") ∅)).
  - exists "pihole". split; [reflexivity|]. apply list_elem_of_here.
  - apply lookup_empty.
Defined.

(** X5.  The [json] subcommand on a source that parses prints the dump of
    the document and nothing else: status 0, no file written, no directory
    created, no diagnostic, no action invoked. *)
Theorem json_run (today content : string) (files : gmap string string)
    (d : document) :
  files !! INPUT_FILE = Some content ->
  read_loop None (iter_lines content) [] = (d, None) ->
  process today (Some "json") files
  = (0%Z, mkState d today files ∅ [] [json_dumps d]).
Proof.
  intros Hfile Hrun. unfold process.
  rewrite main_valid by (by repeat constructor).
  rewrite (run_after_read _ _ _ _ (read_ok _ _ _ _ Hfile Hrun)).
  reflexivity.
Qed.

Lemma json_run_witness :
  stdout (process "2024-01-01" (Some "json")
            {[ INPUT_FILE := "# Ads" +:+ nl +:+ "a.com" +:+ nl ]}).2
  = [json_dumps [("Ads", ["a.com"])]].
Proof.
  rewrite (json_run "2024-01-01" ("# Ads" +:+ nl +:+ "a.com" +:+ nl)
             {[ INPUT_FILE := "# Ads" +:+ nl +:+ "a.com" +:+ nl ]}
             [("Ads", ["a.com"])] (lookup_singleton_eq _ _) eq_refl).
  reflexivity.
Defined.

Lemma duplicates_state (s : state) :
  duplicates s
  = (Ret tt,
     mkState (data s) (timestamp s) (fs s) (dirs s) (log s)
             (stdout s ++
              match Duplicates.findings (data s) with
              | [] => ["No duplicate domains found."]
              | fnd => Duplicates.report fnd
              end)).
Proof.
  unfold duplicates. unfold mbind, M_bind, bind, get_data.
  rewrite Duplicates.report_duplicates_spec.
  cbn [orb data timestamp fs dirs log stdout].
  fold (Duplicates.findings (data s)).
  destruct (forallb _ _) eqn:Hall; cbn [negb].
  - apply Duplicates.no_findings in Hall.
    fold (Duplicates.findings (data s)) in Hall.
    rewrite Hall. unfold print. cbn. by rewrite app_nil_r.
  - unfold ret. destruct (Duplicates.findings (data s)) eqn:Hf; [|done].
    apply Duplicates.no_findings in Hf. congruence.
Qed.

Lemma findings_counts (d : document) e n :
  (e, n) ∈ Duplicates.findings d <->
  n = Duplicates.occurrences e (Duplicates.all_entries d) /\ 1 < n.
Proof.
  destruct (Duplicates.counted_entries d) as (Hnd & Hget & Hkeys).
  unfold Duplicates.findings. rewrite list_elem_of_filter. cbn.
  rewrite Duplicates.elem_of_get by done. rewrite Hget, Hkeys. split.
  - by intros (Hn & _ & <-).
  - intros [-> Hn]. split_and!; [done | lia | done].
Qed.

Lemma duplicates_process today content files d :
  files !! INPUT_FILE = Some content ->
  read_loop None (iter_lines content) [] = (d, None) ->
  process today (Some "duplicates") files
  = (0%Z,
     mkState d today files ∅
             [(INFO, "Invoking subcommand 'duplicates'")]
             match Duplicates.findings d with
             | [] => ["No duplicate domains found."]
             | fnd => Duplicates.report fnd
             end).
Proof.
  intros Hfile Hrun. unfold process.
  rewrite main_valid by (by repeat constructor).
  rewrite (run_after_read _ _ _ _ (read_ok _ _ _ _ Hfile Hrun)).
  change (String.eqb "duplicates" "json") with false.
  change (String.eqb "duplicates" "all") with false.
  cbn [for_each]. unfold mbind, M_bind, bind, logging, try_except, ret.
  change (call_method "duplicates") with duplicates.
  rewrite duplicates_state. reflexivity.
Qed.

Lemma findings_domain_lines content d e n :
  read_loop None (iter_lines content) [] = (d, None) ->
  (e, n) ∈ Duplicates.findings d <->
  n = Duplicates.occurrences e (domain_lines (iter_lines content)) /\ 1 < n.
Proof.
  intros Hrun. rewrite findings_counts. unfold Duplicates.occurrences.
  assert (Duplicates.all_entries d ≡ₚ domain_lines (iter_lines content))
    as Hperm.
  { unfold Duplicates.all_entries.
    by rewrite (read_loop_entries _ None [] d) by done. }
  by rewrite (proj1 (Permutation_count_occ String.string_dec _ _) Hperm).
Qed.

(** X6.  The [duplicates] subcommand on a source that parses ends with
    status 0 and writes nothing; it reports a string with count [n]
    exactly when that string is the stripped text of [n] domain lines of
    the source file and [n] exceeds 1, and prints the no-duplicates message
    when there is no such string. *)
Theorem duplicates_run (today content : string) (files : gmap string string)
    (d : document) :
  files !! INPUT_FILE = Some content ->
  read_loop None (iter_lines content) [] = (d, None) ->
  process today (Some "duplicates") files
  = (0%Z,
     mkState d today files ∅
             [(INFO, "Invoking subcommand 'duplicates'")]
             match Duplicates.findings d with
             | [] => ["No duplicate domains found."]
             | fnd => Duplicates.report fnd
             end) /\
  (forall e n,
      (e, n) ∈ Duplicates.findings d <->
      n = Duplicates.occurrences e (domain_lines (iter_lines content)) /\
      1 < n).
Proof.
  intros Hfile Hrun. split.
  - by apply (duplicates_process today content).
  - intros e n. by apply (findings_domain_lines content).
Qed.

Lemma duplicates_run_witness :
  stdout (process "2024-01-01" (Some "duplicates")
            {[ INPUT_FILE := example_source ]}).2
  = ["Domain a.com found 2 times, please remove duplicate domains."].
Proof.
  rewrite (proj1 (duplicates_run "2024-01-01" example_source
                    {[ INPUT_FILE := example_source ]} example_document
                    (lookup_singleton_eq _ _) eq_refl)).
  reflexivity.
Defined.

End RunFacts.


(** ** The per-category files *)

Module CategoryFacts.
Import PyStr PyStrFacts Convert Order Determinism.























End CategoryFacts.

(** ** The [all] subcommand, end to end *)

Module AllRun.
Import PyStr PyStrFacts Convert Order Determinism RunFacts CategoryFacts.











End AllRun.

(** ** Inputs for the lemmas on second runs and on plain category names *)

Module MoreWitnesses.
Import PyStr PyStrFacts Convert Order.

Lemma rerun_identical_witness :
  let files : gmap string string := {[ INPUT_FILE := example_source ]} in
  let after := fs (process "2024-01-01" (Some "pihole") files).2 in
  after !! INPUT_FILE = files !! INPUT_FILE /\
  fs (process "2024-01-01" (Some "pihole") after).2 = after.
Proof.
  intros files after.
  assert (after !! INPUT_FILE = files !! INPUT_FILE) as Hsrc
    by (vm_compute; reflexivity).
  split; [exact Hsrc|].
  exact (Determinism.rerun_identical "2024-01-01" (Some "pihole") files Hsrc).
Defined.

Lemma plain_category_files_witness :
  category_files "Analytics & Ads"
  = inr ("categories/analytics&ads.txt", "categories/analytics&adsparsed").
Proof.
  exact (Slug.plain_category_files "Analytics & Ads"
           ltac:(discriminate) eq_refl eq_refl).
Defined.

End MoreWitnesses.

(** ** More on the strict duplicate check *)

Module StrictFacts.
Import PyStr PyStrFacts Tests Order Duplicates StrictCheck ParserFacts.

Lemma first_seen_app (pre l : list string) :
  first_seen (pre ++ l)
  = first_seen pre ++ filter (fun x => x ∉ pre) (first_seen l).
Proof.
  induction pre as [|y pre IH]; cbn [app first_seen].
  - symmetry. induction (first_seen l) as [|x xs IHx]; [done|].
    rewrite filter_cons_True by apply not_elem_of_nil. by rewrite IHx.
  - rewrite IH, filter_app, list_filter_filter. do 2 f_equal.
    apply list_filter_iff. intros x. rewrite not_elem_of_cons. tauto.
Qed.

Lemma keys_foldl_incr (l : list string) : forall h : list (string * nat),
  (foldl (fun h e => Convert.incr e h) h l).*1
  = h.*1 ++ filter (fun x => x ∉ h.*1) (first_seen l).
Proof.
  induction l as [|e l IH]; intros h; cbn [foldl first_seen].
  - by rewrite filter_nil, app_nil_r.
  - rewrite IH, keys_incr. case_decide as Hin.
    + f_equal. rewrite filter_cons_False by (intros H; by apply H).
      rewrite list_filter_filter. apply list_filter_iff.
      intros x. split; [|tauto]. intros Hx. split; [done|]. by intros ->.
    + rewrite <- List.app_assoc. f_equal.
      rewrite filter_cons_True by done. cbn. f_equal.
      rewrite list_filter_filter. apply list_filter_iff. intros x.
      rewrite elem_of_app, list_elem_of_singleton. tauto.
Qed.

Lemma first_duplicate_split counts d n :
  first_duplicate counts = Some (d, n) ->
  exists c1 c2,
    counts = c1 ++ (d, n) :: c2 /\ 1 < n /\
    Forall (fun kv : string * nat => kv.2 <= 1) c1.
Proof.
  induction counts as [|[k m] counts IH]; cbn [first_duplicate]; [done|].
  destruct (Nat.ltb_spec 1 m) as [Hgt|Hle].
  - intros ?; simplify_eq. by exists [], counts.
  - intros (c1 & c2 & -> & Hn & Hc1)%IH.
    exists ((k, m) :: c1), c2. split_and!; [done..|]. by constructor.
Qed.

Lemma split_unique (x : string) (l1 l2 l1' l2' : list string) :
  x ∉ l1 -> x ∉ l1' -> l1 ++ x :: l2 = l1' ++ x :: l2' -> l1 = l1'.
Proof.
  revert l1'. induction l1 as [|a l1 IH]; intros [|b l1'] H1 H1' Heq;
    cbn in Heq.
  - done.
  - injection Heq as -> _. by apply not_elem_of_cons in H1' as [? _].
  - injection Heq as -> _. by apply not_elem_of_cons in H1 as [? _].
  - injection Heq as -> Heq. f_equal.
    apply not_elem_of_cons in H1 as [_ H1].
    apply not_elem_of_cons in H1' as [_ H1']. by apply IH.
Qed.

(** X11.  When some line is repeated, [check_duplicates] names the
    repeated line whose first occurrence comes first in the file: no line
    before that occurrence is repeated anywhere, and the count in the
    message is the number of occurrences of the named line. *)
Theorem first_duplicate_is_earliest (filepath content : string) :
  let entries := counted_lines content in
  (exists x, 1 < occurrences x entries) ->
  exists d pre post,
    entries = pre ++ d :: post /\
    1 < occurrences d entries /\
    (forall x, x ∈ pre -> occurrences x entries <= 1) /\
    check_duplicates filepath (Some content)
    = (inl (AssertionError
              (duplicate_message d (occurrences d entries) filepath)), []).
Proof.
  intros entries [x Hx].
  destruct (first_duplicate (count_lines (iter_lines content) []))
    as [[d n]|] eqn:Hfd.
  2:{ destruct (check_duplicates_passes filepath content Hfd) as [Hle _].
      specialize (Hle x). fold entries in Hle. lia. }
  destruct (check_duplicates_raises filepath content d n Hfd)
    as (Hn & Hgt & Hcheck).
  fold entries in Hn. subst n.
  destruct (counted_count_lines content) as (Hnd & Hget & Hkeys).
  fold entries in Hget, Hkeys.
  apply first_duplicate_split in Hfd as (c1 & c2 & Hcounts & _ & Hc1).
  assert (d ∈ entries) as Hin.
  { destruct (decide (d ∈ entries)) as [|Hout]; [done|].
    unfold occurrences in Hgt.
    rewrite (proj1 (count_occ_not_In String.string_dec entries d)) in Hgt;
      [lia|]. by rewrite <- list_elem_of_In. }
  apply list_elem_of_split_l in Hin as (pre & post & Hentries & Hpre).
  exists d, pre, post. split_and!; [done..| |done].
  assert ((count_lines (iter_lines content) []).*1 = first_seen entries)
    as Hks.
  { rewrite count_lines_foldl, keys_foldl_incr. cbn [fmap list_fmap app].
    fold (counted_lines content). fold entries.
    induction (first_seen entries) as [|y ys IHy]; [done|].
    rewrite filter_cons_True by apply not_elem_of_nil. by rewrite IHy. }
  rewrite Hcounts in Hks. rewrite fmap_app, fmap_cons in Hks. cbn in Hks.
  rewrite Hentries, first_seen_app in Hks. cbn [first_seen] in Hks.
  rewrite filter_cons_True in Hks by done.
  assert (d ∉ c1.*1) as Hc1d.
  { rewrite Hcounts, fmap_app, fmap_cons in Hnd.
    apply NoDup_app in Hnd as (_ & Hnd & _). intros Hd.
    apply (Hnd d Hd), list_elem_of_here. }
  assert (d ∉ first_seen pre) as Hfsd by by rewrite first_seen_elem.
  pose proof (split_unique d _ _ _ _ Hc1d Hfsd Hks) as Hc1keys.
  intros y Hy. apply first_seen_elem in Hy. rewrite <- Hc1keys in Hy.
  apply list_elem_of_fmap in Hy as ([y' m] & -> & Hym). cbn.
  pose proof (proj1 (Forall_forall _ _) Hc1 _ Hym) as Hm. cbn in Hm.
  assert ((y', m) ∈ count_lines (iter_lines content) []) as Hyc.
  { rewrite Hcounts. apply elem_of_app. by left. }
  apply elem_of_get in Hyc as [_ Hg]; [|done].
  rewrite Hget in Hg. by rewrite Hg.
Qed.

Lemma first_duplicate_is_earliest_witness :
  (exists x, 1 < occurrences x (counted_lines example_source)) /\
  exists d pre post,
    counted_lines example_source = pre ++ d :: post /\
    1 < occurrences d (counted_lines example_source) /\
    (forall x, x ∈ pre -> occurrences x (counted_lines example_source) <= 1) /\
    check_duplicates "pihole-google.txt" (Some example_source)
    = (inl (AssertionError
              (duplicate_message d
                 (occurrences d (counted_lines example_source))
                 "pihole-google.txt")), []).
Proof.
  assert (exists x, 1 < occurrences x (counted_lines example_source)) as Hx.
  { exists "a.com". vm_compute. lia. }
  split; [exact Hx|].
  exact (first_duplicate_is_earliest "pihole-google.txt" example_source Hx).
Defined.

Lemma domain_lines_le (e : string) (lines : list string) :
  occurrences e (domain_lines lines)
  <= occurrences e (filter (fun l => truthy l = true) (map strip lines)).
Proof.
  unfold occurrences, domain_lines.
  induction lines as [|l lines IH]; [done|]. cbn [map].
  destruct (is_domain_line l) eqn:Hd.
  - rewrite filter_cons_True by done.
    apply andb_true_iff in Hd as [_ Ht].
    rewrite (filter_cons_True (fun l => truthy l = true)) by done.
    cbn [map count_occ]. destruct (String.string_dec (strip l) e); lia.
  - rewrite filter_cons_False by congruence.
    destruct (truthy (strip l)) eqn:Ht.
    + rewrite (filter_cons_True (fun l => truthy l = true)) by done.
      cbn [count_occ]. destruct (String.string_dec (strip l) e); lia.
    + by rewrite (filter_cons_False (fun l => truthy l = true))
        by congruence.
Qed.

(** X12.  A source file that passes the strict duplicate check and parses
    has nothing to report in the report-only scan of the converter: the
    [duplicates] subcommand prints the no-duplicates message. *)
Theorem strict_pass_nothing_to_report (today filepath content : string)
    (files : gmap string string) (d : Convert.document) :
  (check_duplicates filepath (Some content)).1 = inr tt ->
  files !! Convert.INPUT_FILE = Some content ->
  Convert.read_loop None (iter_lines content) [] = (d, None) ->
  findings d = [] /\
  Convert.stdout (Convert.process today (Some "duplicates") files).2
  = ["No duplicate domains found."].
Proof.
  intros Hpass Hfile Hrun.
  assert (findings d = []) as Hnone.
  { destruct (findings d) as [|[e n] fnd] eqn:Hf; [done|].
    assert ((e, n) ∈ findings d) as Hin
      by (rewrite Hf; apply list_elem_of_here).
    apply (RunFacts.findings_domain_lines content) in Hin as [-> Hgt];
      [|done].
    pose proof (domain_lines_le e (iter_lines content)) as Hle.
    fold (counted_lines content) in Hle.
    destruct (first_duplicate (count_lines (iter_lines content) []))
      as [[x m]|] eqn:Hfd.
    - destruct (check_duplicates_raises filepath content x m Hfd)
        as (_ & _ & Heq).
      by rewrite Heq in Hpass.
    - destruct (check_duplicates_passes filepath content Hfd) as [Hall _].
      specialize (Hall e). lia. }
  split; [done|].
  rewrite (RunFacts.duplicates_process today content files d) by done.
  cbn [snd Convert.stdout]. by rewrite Hnone.
Qed.

Lemma strict_pass_nothing_to_report_witness :
  let content := "# Ads" +:+ nl +:+ "a.com" +:+ nl +:+ "b.com" +:+ nl in
  Convert.stdout (Convert.process "2024-01-01" (Some "duplicates")
                    {[ Convert.INPUT_FILE := content ]}).2
  = ["No duplicate domains found."].
Proof.
  intros content.
  exact (proj2 (strict_pass_nothing_to_report "2024-01-01" "pihole-google.txt"
                  content {[ Convert.INPUT_FILE := content ]}
                  [("Ads", ["a.com"; "b.com"])]
                  eq_refl (lookup_singleton_eq _ _) eq_refl)).
Defined.

End StrictFacts.

(** ** More on the rewriting of the source file by dnscheck.py *)

Module NsFacts.
Import PyStr PyStrFacts DnsCheck NsCheck ParserFacts.

Lemma main_files resolve (files : gmap string string) content :
  files !! input_file = Some content ->
  (main resolve files).1
  = <[input_file := concat (rewritten resolve (iter_lines content))]> files.
Proof.
  intros Hfile. unfold main. rewrite Hfile. cbn [fst]. do 2 f_equal.
  apply (loop_spec resolve (iter_lines content) (mkLoop 0 0 [] [])).
Qed.

Lemma filter_split_length {A} (P : A -> bool) (l : list A) :
  length (filter (fun x => P x = false) l)
  + length (filter (fun x => P x = true) l) = length l.
Proof.
  induction l as [|x l IH]; [done|]. destruct (P x) eqn:HP.
  - rewrite filter_cons_False by congruence.
    rewrite filter_cons_True by done. cbn. lia.
  - rewrite filter_cons_True by done.
    rewrite filter_cons_False by congruence. cbn. lia.
Qed.

Lemma numbered_length lines : forall k, length (numbered k lines) = length lines.
Proof.
  induction lines as [|l lines IH]; intros k; cbn; [done|].
  destruct (is_domain l); cbn; by rewrite IH.
Qed.

(** X13.  After a run on an existing file, the lines kept and the lines
    removed add up to the lines read, and the closing diagnostic states the
    number of removed lines. *)
Theorem rewrite_accounting (resolve : resolver) (files : gmap string string)
    (content : string) :
  files !! input_file = Some content ->
  let lines := iter_lines content in
  let gone := length (filter (fun ln => removed resolve ln = true)
                             (numbered 0 lines)) in
  length (rewritten resolve lines) + gone = length lines /\
  exists earlier,
    (main resolve files).2
    = earlier ++ [(INFO, "Processed domains. Found " +:+ pretty gone
                         +:+ " domains without NS records.")].
Proof.
  intros Hfile lines gone. split.
  - unfold rewritten. rewrite length_map. subst gone.
    rewrite filter_split_length. apply numbered_length.
  - destruct (loop_spec resolve lines (mkLoop 0 0 [] [])) as [_ Hfound].
    cbn [found_domains queries Nat.add] in Hfound.
    unfold main. rewrite Hfile. cbn [snd]. fold lines. rewrite Hfound.
    by eexists.
Qed.

Lemma rewrite_accounting_witness :
  let content :=
    "# Ads" +:+ nl +:+ " gone.example " +:+ nl +:+ nl +:+ "a.com" in
  length (rewritten first_gone (iter_lines content)) + 1 = 4.
Proof.
  intros content.
  exact (proj1 (rewrite_accounting first_gone {[ input_file := content ]}
                  content (lookup_singleton_eq _ _))).
Defined.

(** *** Reading back what was written *)

(** A string without a line terminator inside. *)
Definition plain (s : string) : Prop :=
  mem_char "010" s = false /\ mem_char "013" s = false.

Lemma mem_char_app c s t :
  mem_char c (s +:+ t) = mem_char c s || mem_char c t.
Proof.
  induction s as [|a s IH]; [done|]. rewrite sapp_cons. cbn [mem_char].
  by rewrite IH, orb_assoc.
Qed.

Lemma mem_char_lstrip c s : mem_char c s = false -> mem_char c (lstrip s) = false.
Proof.
  induction s as [|a s IH]; [done|]. cbn [lstrip].
  destruct (isspace a); [|done]. cbn [mem_char].
  intros [_ Hs]%orb_false_iff. by apply IH.
Qed.

Lemma mem_char_rstrip c s : mem_char c s = false -> mem_char c (rstrip s) = false.
Proof.
  induction s as [|a s IH]; [done|]. cbn [rstrip mem_char].
  intros [Ha Hs]%orb_false_iff.
  destruct (isspace a && negb (truthy (rstrip s))); [done|].
  cbn [mem_char]. by rewrite Ha, IH.
Qed.

Lemma plain_strip s : plain s -> plain (strip s).
Proof.
  intros [Hn Hr]. unfold strip.
  split; by apply mem_char_rstrip, mem_char_lstrip.
Qed.

Lemma rstrip_app_nl s : rstrip (s +:+ nl) = rstrip s.
Proof.
  induction s as [|a s IH]; [done|]. rewrite sapp_cons. cbn [rstrip].
  by rewrite IH.
Qed.

Lemma lstrip_app_nl s :
  lstrip (s +:+ nl)
  = if truthy (lstrip s) then lstrip s +:+ nl else EmptyString.
Proof.
  induction s as [|a s IH]; [done|]. rewrite sapp_cons. cbn [lstrip].
  by destruct (isspace a).
Qed.

Lemma strip_app_nl s : strip (s +:+ nl) = strip s.
Proof.
  unfold strip. rewrite lstrip_app_nl.
  destruct (truthy (lstrip s)) eqn:Ht.
  - apply rstrip_app_nl.
  - apply truthy_false in Ht. by rewrite Ht.
Qed.

(** Every line that the file iterator yields is a text without a line
    terminator, possibly followed by one newline. *)
Lemma iter_lines_shape s :
  Forall (fun l => exists body, plain body /\ (l = body \/ l = body +:+ nl))
         (iter_lines s).
Proof.
  induction s as [|c s IH]; [constructor|]. cbn [iter_lines].
  destruct (Ascii.eqb_spec c "010") as [->|Hn].
  { constructor; [|done]. exists EmptyString. split; [done | by right]. }
  destruct (Ascii.eqb_spec c "013") as [->|Hr].
  { assert (Forall (fun l => exists body,
                        plain body /\ (l = body \/ l = body +:+ nl))
                   (nl :: iter_lines s)) as Hnl.
    { constructor; [|done]. exists EmptyString. split; [done | by right]. }
    destruct s as [|c' s']; [done|].
    destruct (Ascii.ascii_dec c' "010") as [->|Hc']; [done|].
    by repeat case_match. }
  assert (plain (String c EmptyString)) as Hc.
  { split; cbn [mem_char]; rewrite orb_false_r, Ascii.eqb_sym;
      apply Ascii.eqb_neq; congruence. }
  destruct (iter_lines s) as [|l ls]; [|apply Forall_cons in IH as [Hl Hls]].
  - constructor; [|done]. exists (String c EmptyString). auto.
  - constructor; [|done]. destruct Hl as (body & [Hbn Hbr] & Hl).
    exists (String c body). split.
    + destruct Hc as [Hcn Hcr]. cbn [mem_char] in Hcn, Hcr.
      rewrite orb_false_r in Hcn, Hcr.
      split; cbn [mem_char]; [by rewrite Hbn, Hcn | by rewrite Hbr, Hcr].
    + destruct Hl as [->| ->]; [by left | by right].
Qed.

Lemma iter_lines_line body rest :
  plain body ->
  iter_lines (body +:+ nl +:+ rest) = (body +:+ nl) :: iter_lines rest.
Proof.
  intros [Hn Hr]. induction body as [|c body IH]; [done|].
  cbn [mem_char] in Hn, Hr.
  apply orb_false_iff in Hn as [Hcn Hn]. apply orb_false_iff in Hr as [Hcr Hr].
  rewrite !sapp_cons. cbn [iter_lines].
  rewrite Ascii.eqb_sym, Hcn, Ascii.eqb_sym, Hcr. by rewrite IH.
Qed.

Lemma iter_lines_written (bodies : list string) :
  Forall plain bodies ->
  iter_lines (concat (map (fun b => b +:+ nl) bodies))
  = map (fun b => b +:+ nl) bodies.
Proof.
  induction 1 as [|b bs Hb _ IH]; [done|]. cbn [map concat].
  by rewrite sapp_assoc, iter_lines_line, IH.
Qed.

Lemma strip_plain_line s l : l ∈ iter_lines s -> plain (strip l).
Proof.
  intros Hl. pose proof (iter_lines_shape s) as Hshape.
  eapply Forall_forall in Hshape as (body & Hb & Hl'); [|done].
  destruct Hl' as [->| ->]; [|rewrite strip_app_nl]; by apply plain_strip.
Qed.

(** The stripped texts of the lines that a run keeps. *)
Definition kept_bodies (resolve : resolver) (lines : list string)
    : list string :=
  map (fun ln => strip ln.1)
      (filter (fun ln => removed resolve ln = false) (numbered 0 lines)).

Lemma rewritten_bodies resolve lines :
  rewritten resolve lines = map (fun b => b +:+ nl) (kept_bodies resolve lines).
Proof. unfold rewritten, kept_bodies. by rewrite map_map. Qed.

Lemma kept_bodies_plain resolve s :
  Forall plain (kept_bodies resolve (iter_lines s)).
Proof.
  apply Forall_forall. intros b ([l o] & -> & Hin)%list_elem_of_fmap.
  apply list_elem_of_filter in Hin as [_ Hin]. cbn.
  apply (strip_plain_line s).
  rewrite <- (numbered_lines (iter_lines s) 0).
  change l with (l, o).1. by apply list_elem_of_fmap_2.
Qed.

Lemma kept_bodies_stripped resolve lines :
  Forall (fun b => strip b = b) (kept_bodies resolve lines).
Proof.
  apply Forall_forall. intros b ([l o] & -> & _)%list_elem_of_fmap.
  apply strip_strip.
Qed.

Lemma nothing_removed resolve lines : forall k,
  (forall n d, resolve n d <> Raises NXDOMAIN) ->
  filter (fun ln => removed resolve ln = false) (numbered k lines)
  = numbered k lines.
Proof.
  intros k Hnx. induction (numbered k lines) as [|[l o] lns IH]; [done|].
  rewrite filter_cons_True, IH; [done|]. unfold removed. cbn [fst snd].
  destruct o as [n|]; [|done].
  destruct (check_domain (strip l) (resolve n (strip l))).1 eqn:Hc; [|done].
  apply check_domain_true in Hc. by apply Hnx in Hc.
Qed.

(** X14.  The file that a run leaves behind reads back, line by line, as
    the lines the run kept; and a later run during which the resolver
    reports no missing domain leaves that file exactly as it is. *)
Theorem rewritten_file_stable (first later : resolver)
    (files : gmap string string) (content : string) :
  files !! input_file = Some content ->
  let files' := (main first files).1 in
  files' !! input_file
  = Some (concat (rewritten first (iter_lines content))) /\
  iter_lines (concat (rewritten first (iter_lines content)))
  = rewritten first (iter_lines content) /\
  ((forall n d, later n d <> Raises NXDOMAIN) ->
   (main later files').1 = files').
Proof.
  intros Hfile files'. subst files'. rewrite (main_files _ _ _ Hfile).
  assert (iter_lines (concat (rewritten first (iter_lines content)))
          = rewritten first (iter_lines content)) as Hback.
  { rewrite rewritten_bodies. apply iter_lines_written, kept_bodies_plain. }
  split_and!; [apply lookup_insert_eq | done |].
  intros Hnx. rewrite (main_files later _ _ (lookup_insert_eq _ _ _)).
  rewrite insert_insert_eq. do 2 f_equal. rewrite Hback.
  unfold rewritten at 1. rewrite nothing_removed by done.
  rewrite <- (map_map fst (fun l => strip l +:+ nl)).
  change (map fst (numbered 0 ?l)) with ((numbered 0 l).*1).
  rewrite numbered_lines, rewritten_bodies, map_map.
  apply map_ext_in. intros b Hb%list_elem_of_In.
  rewrite strip_app_nl.
  pose proof (kept_bodies_stripped first (iter_lines content)) as Hs.
  by rewrite (proj1 (Forall_forall _ _) Hs b Hb).
Qed.

Lemma rewritten_file_stable_witness :
  let content :=
    "# Ads" +:+ nl +:+ " gone.example " +:+ nl +:+ nl +:+ "a.com" in
  let files : gmap string string := {[ input_file := content ]} in
  iter_lines (concat (rewritten first_gone (iter_lines content)))
  = ["# Ads" +:+ nl; nl; "a.com" +:+ nl].
Proof.
  intros content files.
  exact (proj1 (proj2 (rewritten_file_stable first_gone first_gone files
                         content (lookup_singleton_eq _ _)))).
Defined.

End NsFacts.

(** ** More on the WHOIS script *)

Module WhoisFacts.
Import PyStr PyStrFacts DomainCheckApi WhoisRetry Order ParserFacts.

Lemma remove_duplicates_first_seen (l : list string) :
  remove_duplicates l = first_seen l.
Proof.
  unfold remove_duplicates.
  assert (forall keys,
            foldl (fun keys k =>
                     if bool_decide (k ∈ keys) then keys else keys ++ [k])
                  keys l
            = keys ++ filter (fun x => x ∉ keys) (first_seen l)) as Hgen.
  { induction l as [|e l IH]; intros keys; cbn [foldl first_seen].
    - by rewrite filter_nil, app_nil_r.
    - rewrite IH. case_bool_decide as Hin.
      + f_equal. rewrite filter_cons_False by (intros H; by apply H).
        rewrite list_filter_filter. apply list_filter_iff.
        intros x. split; [|tauto]. intros Hx. split; [done|]. by intros ->.
      + rewrite <- List.app_assoc. f_equal.
        rewrite filter_cons_True by done. cbn. f_equal.
        rewrite list_filter_filter. apply list_filter_iff. intros x.
        rewrite elem_of_app, list_elem_of_singleton. tauto. }
  rewrite Hgen. cbn [app]. clear Hgen.
  induction (first_seen l) as [|y ys IHy]; [done|].
  rewrite filter_cons_True by apply not_elem_of_nil. by rewrite IHy.
Qed.

Lemma first_seen_sublist (l : list string) : sublist (first_seen l) l.
Proof.
  induction l as [|x l IH]; cbn [first_seen]; [done|].
  apply sublist_skip. etrans; [apply sublist_filter | done].
Qed.

Lemma first_seen_NoDup_id (l : list string) : NoDup l -> first_seen l = l.
Proof.
  induction 1 as [|x l Hx _ IH]; cbn [first_seen]; [done|].
  rewrite IH. f_equal. clear IH.
  induction l as [|y l IHl]; [done|].
  apply not_elem_of_cons in Hx as [Hne Hx].
  rewrite filter_cons_True by congruence. by rewrite IHl.
Qed.

(** X15.  [remove_duplicates] returns a list without repetition that has
    exactly the elements of its argument, in the order of the argument (it
    is a sublist of it), and returns a list that has no repetition
    unchanged. *)
Theorem remove_duplicates_spec (l : list string) :
  NoDup (remove_duplicates l) /\
  (forall x, x ∈ remove_duplicates l <-> x ∈ l) /\
  sublist (remove_duplicates l) l /\
  (NoDup l -> remove_duplicates l = l).
Proof.
  rewrite remove_duplicates_first_seen. split_and!.
  - apply first_seen_NoDup.
  - apply first_seen_elem.
  - apply first_seen_sublist.
  - apply first_seen_NoDup_id.
Qed.

Lemma remove_duplicates_spec_witness :
  NoDup ["a.com"; "b.net"] /\ remove_duplicates ["a.com"; "b.net"]
                              = ["a.com"; "b.net"].
Proof.
  assert (NoDup ["a.com"; "b.net"]) as Hnd.
  { apply NoDup_cons. split; [|apply NoDup_singleton].
    intros [=]%list_elem_of_singleton. }
  split; [exact Hnd|].
  exact (proj2 (proj2 (proj2 (remove_duplicates_spec ["a.com"; "b.net"])))
           Hnd).
Defined.

(** *** Reports and pauses of a run *)

(** The domains reported in a stretch of the trace, in order. *)
Definition reported (t : list event) : list string :=
  omap (fun e => match e with Report d _ => Some d | _ => None end) t.

(** The seconds slept in a stretch of the trace. *)
Definition paused (t : list event) : nat :=
  foldr (fun e n => match e with Sleep k => k + n | _ => n end) 0 t.

(** The domains of the main pass whose lookup does not fail transiently. *)
Fixpoint settled_subset (whois : whois_service) (k : nat)
    (domains : list string) : list string :=
  match domains with
  | [] => []
  | d :: ds =>
      if is_transient (whois k d) then settled_subset whois (S k) ds
      else d :: settled_subset whois (S k) ds
  end.

Lemma paused_app t1 t2 : paused (t1 ++ t2) = paused t1 + paused t2.
Proof.
  unfold paused. induction t1 as [|e t1 IH]; [done|].
  cbn [app foldr]. destruct e; lia.
Qed.

Lemma is_registered_reported d r : reported (is_registered d r).2 = [].
Proof.
  destruct r as [w|[]]; cbn; try done.
  by destruct (names_truthy (domain_name w)).
Qed.

Lemma is_registered_paused d r : 1 <= paused (is_registered d r).2.
Proof.
  destruct r as [w|[]]; cbn; try lia.
  destruct (names_truthy (domain_name w)); cbn; lia.
Qed.

Lemma main_pass_measures whois domains : forall st,
  let st' := foldl (main_body whois) st domains in
  exists t,
    trace st' = trace st ++ t /\
    queried t = domains /\
    reported t = settled_subset whois (queries st) domains /\
    length domains <= paused t.
Proof.
  induction domains as [|d ds IH]; intros st; cbn [foldl settled_subset].
  - exists []. by rewrite app_nil_r.
  - cbn zeta.
    pose proof (is_registered_queried d (whois (queries st) d)) as Hq.
    pose proof (is_registered_reported d (whois (queries st) d)) as Hr.
    pose proof (is_registered_paused d (whois (queries st) d)) as Hp.
    destruct (is_transient (whois (queries st) d)) eqn:Ht.
    + rewrite (main_body_transient _ _ _ Ht).
      destruct (IH (mkRun (S (queries st)) (retry_domains st ++ [d])
                     (trace st ++ (is_registered d
                                     (whois (queries st) d)).2)))
        as (t & Htrace & Hqt & Hrt & Hpt).
      cbn [queries retry_domains trace] in *.
      exists ((is_registered d (whois (queries st) d)).2 ++ t).
      rewrite Htrace. unfold queried, reported in *.
      rewrite !omap_app, Hq, Hr, Hqt, Hrt, paused_app.
      split_and!; [by rewrite List.app_assoc | done | done | cbn; lia].
    + rewrite (main_body_settled _ _ _ Ht).
      destruct (IH (mkRun (S (queries st)) (retry_domains st)
                     (trace st ++ (is_registered d
                                     (whois (queries st) d)).2
                      ++ [Report d (is_registered d
                                      (whois (queries st) d)).1])))
        as (t & Htrace & Hqt & Hrt & Hpt).
      cbn [queries retry_domains trace] in *.
      exists ((is_registered d (whois (queries st) d)).2
              ++ [Report d (is_registered d (whois (queries st) d)).1]
              ++ t).
      rewrite Htrace. unfold queried, reported in *.
      rewrite !omap_app, Hq, Hr, Hqt, Hrt, !paused_app.
      split_and!; [by rewrite <- !List.app_assoc | done | done | cbn; lia].
Qed.

Lemma retry_pass_measures whois l : forall st,
  let st' := foldl (retry_body whois) st l in
  exists t,
    trace st' = trace st ++ t /\
    queried t = l /\ reported t = l /\ length l <= paused t.
Proof.
  induction l as [|d l IH]; intros st; cbn [foldl].
  - exists []. by rewrite app_nil_r.
  - cbn zeta. destruct (IH (retry_body whois st d))
      as (t & Htrace & Hqt & Hrt & Hpt).
    rewrite Htrace. clear IH Htrace. unfold retry_body.
    pose proof (is_registered_queried d (whois (queries st) d)) as Hq.
    pose proof (is_registered_reported d (whois (queries st) d)) as Hr.
    pose proof (is_registered_paused d (whois (queries st) d)) as Hp.
    destruct (is_registered d (whois (queries st) d)) as [result events].
    cbn [queries retry_domains trace snd] in *.
    exists (events ++ [Report d result] ++ t).
    unfold queried, reported in *.
    rewrite !omap_app, Hq, Hr, Hqt, Hrt, !paused_app.
    split_and!; [by rewrite <- !List.app_assoc | done | done | cbn; lia].
Qed.

Lemma settled_failed_perm whois domains : forall k,
  settled_subset whois k domains ++ failed_subset whois k domains
  ≡ₚ domains.
Proof.
  induction domains as [|d ds IH]; intros k; cbn; [done|].
  destruct (is_transient (whois k d)).
  - rewrite <- Permutation_middle. by rewrite IH.
  - cbn. by rewrite IH.
Qed.

(** X16.  Over a whole run, the lookups are those of the distinct domains
    in order followed by those of the transiently failed ones, so at most
    two per domain; every distinct domain is reported exactly once; and the
    run sleeps at least one second for every lookup it makes. *)
Theorem whois_run_accounting (whois : whois_service) (yielded : list string) :
  let domains := remove_duplicates yielded in
  let failed := failed_subset whois 0 domains in
  let t := trace (main whois yielded) in
  queried t = domains ++ failed /\
  length (queried t) <= 2 * length domains /\
  reported t ≡ₚ domains /\
  length (queried t) <= paused t.
Proof.
  intros domains failed t.
  destruct (main_pass_spec whois domains (mkRun 0 [] [])) as [Hretry _].
  destruct (main_pass_measures whois domains (mkRun 0 [] []))
    as (t1 & Ht1 & Hq1 & Hr1 & Hp1).
  cbn [queries retry_domains trace app] in Hretry, Ht1, Hr1.
  fold failed in Hretry.
  assert (exists t2, t = t1 ++ t2 /\ queried t2 = failed /\
                     reported t2 = failed /\ length failed <= paused t2)
    as (t2 & Ht & Hq2 & Hr2 & Hp2).
  { subst t. unfold main. fold domains.
    set (st := foldl (main_body whois) (mkRun 0 [] []) domains) in *.
    destruct (retry_domains st) as [|d0 rest] eqn:Hrd.
    - exists []. rewrite app_nil_r, <- Hretry. by split_and!; [|..|cbn; lia].
    - rewrite Hretry. cbn [retry_domains].
      destruct (retry_pass_measures whois failed
                  (mkRun (queries st) failed
                         (trace st ++ [Print retry_banner])))
        as (t' & Ht' & Hq' & Hr' & Hp').
      cbn [trace] in Ht'. rewrite Ht', Ht1.
      exists ([Print retry_banner] ++ t').
      split_and!; [by rewrite <- !List.app_assoc | done..]. }
  assert (length failed <= length domains) as Hlen
    by apply sublist_length, failed_subset_sublist.
  rewrite Ht. unfold queried, reported in *.
  rewrite !omap_app, Hq1, Hq2, Hr1, Hr2, paused_app, !length_app.
  split_and!; [done | lia | apply settled_failed_perm | lia].
Qed.

Lemma whois_run_accounting_witness :
  length (queried (trace (main refuse_first ["a.com"; "b.net"; "a.com"])))
  <= 2 * length (remove_duplicates ["a.com"; "b.net"; "a.com"]).
Proof.
  exact (proj1 (proj2 (whois_run_accounting refuse_first
                         ["a.com"; "b.net"; "a.com"]))).
Defined.

(** *** What a successful lookup returns *)

Lemma lower_char_lower_char c : lower_char (lower_char c) = lower_char c.
Proof. by destruct c as [[] [] [] [] [] [] [] []]. Qed.

Lemma lower_lower s : lower (lower s) = lower s.
Proof.
  induction s as [|c s IH]; [done|]. cbn [lower].
  by rewrite lower_char_lower_char, IH.
Qed.

(** X17.  For a reply that is a WHOIS record, [is_registered] answers
    "registered" exactly when the record has a non-empty [domain_name] and
    [False] otherwise, never the temporary-error value; the names come back
    as a non-empty list, and the name servers come back lower-cased, so
    that lower-casing them again changes nothing. *)
Theorem registered_record (domain : string) (w : whois_entry) :
  (names_truthy (domain_name w) = false ->
   (is_registered domain (Answer w)).1 = NotRegistered) /\
  (names_truthy (domain_name w) = true ->
   exists names servers,
     (is_registered domain (Answer w)).1 = Registered names (org w) servers /\
     names <> [] /\
     (forall s, domain_name w = Name s -> names = [s]) /\
     (forall l, domain_name w = Names l -> names = l) /\
     length servers = length (default [] (name_servers w)) /\
     Forall (fun s => lower s = s) servers).
Proof.
  split; intros Hn; cbn; rewrite Hn; [done|].
  eexists _, _. split_and!; [done| | | | |].
  - by destruct (domain_name w) as [|s|[|x l]].
  - by intros s ->.
  - by intros l ->.
  - destruct (name_servers w); cbn; [by rewrite length_map | done].
  - destruct (name_servers w) as [l|]; [|constructor].
    apply Forall_forall. intros s (x & -> & _)%list_elem_of_fmap.
    apply lower_lower.
Qed.

Lemma registered_record_witness :
  (is_registered "example.com"
     (Answer (mkEntry (Name "EXAMPLE.COM") None (Some ["NS1.Example.COM"])))).1
  = Registered ["EXAMPLE.COM"] None ["ns1.example.com"].
Proof.
  destruct (proj2 (registered_record "example.com"
                     (mkEntry (Name "EXAMPLE.COM") None
                              (Some ["NS1.Example.COM"]))) eq_refl)
    as (names & servers & Heq & _).
  rewrite Heq. cbn in Heq. by injection Heq as <- <-.
Defined.

End WhoisFacts.
